(** * EDI 835 remittance advice: the transaction set

    A shallow embedding of [edi_835_parser/transaction_set/transaction_set.py]:
    the [TransactionSet] aggregate, its payer lookup, the flattening of the
    claim/service/adjustment tree into rows ([to_dataframe]), and the
    top-level builder ([build], [build_attribute]) that walks the segment
    stream.

    Python exceptions are values of [exception]; a computation that may
    raise returns a [result].  A row of the data frame is the Python [dict]
    it is built from, here a finite map from column names to cell values. *)

From stdpp Require Import base tactics option list strings gmap.
From Stdlib Require Import Ascii ZArith NArith Lia.

Local Open Scope string_scope.
Local Open Scope Z_scope.
Local Open Scope list_scope.

(** ** Python values, exceptions and results *)

(** The objects stored in the cells of a row.  Fields of the segment
    classes whose Python type the transaction set never looks at are kept
    as a [cell] too. *)
Inductive cell : Type :=
  | VNone
  | VInt (n : Z)
  | VStr (s : string).

Inductive exception : Type :=
  | AssertionError
  | AttributeError
  | IndexError.

Inductive result (A : Type) : Type :=
  | Ok (a : A)
  | Raise (e : exception).
Arguments Ok {A} a.
Arguments Raise {A} e.

#[global] Instance result_ret : MRet result := fun A a => Ok a.
#[global] Instance result_bind : MBind result := fun A B f m =>
  match m with
  | Ok a => f a
  | Raise e => Raise e
  end.

#[global] Instance cell_eq_dec : EqDecision cell.
Proof. solve_decision. Defined.
#[global] Instance exception_eq_dec : EqDecision exception.
Proof. solve_decision. Defined.

(** [Optional[str]] as a cell. *)
Definition of_optional_str (o : option string) : cell :=
  match o with
  | Some s => VStr s
  | None => VNone
  end.

(** [sep.join(parts)] *)
Fixpoint join (sep : string) (parts : list string) : string :=
  match parts with
  | [] => EmptyString
  | [p] => p
  | p :: rest => p +:+ sep +:+ join sep rest
  end.

(** ** Data model *)

(** Modelled from the spec: the segment and loop classes
    ([edi_835_parser.segments], [edi_835_parser.loops]) are imported by the
    transaction set but defined elsewhere.  The records below carry the
    attributes [transaction_set.py] reads, under the names it reads them
    by, with the shape section 3 of the specification gives them. *)
Record FinancialInformationSegment : Type := {
  transaction_date : cell;
}.

Record OrganizationSegment : Type := {
  type : string;
  name : cell;
}.

Record OrganizationLoop : Type := {
  organization : OrganizationSegment;
}.

Record DateSegment : Type := {
  date : cell;
}.

(** The [name] of an entity segment is [entity_name] here, [name] being
    the attribute of the organization segment. *)
Record EntitySegment : Type := {
  entity_name : cell;
}.

Record RemarkSegment : Type := {
  qualifier : string;
  code : string;
}.

Record ServiceAdjustment : Type := {
  amount : Z;
  group_code : string;
  reason_code : string;
}.

Record ServiceSegment : Type := {
  service_code : cell;
  units : cell;
  charge_amount : cell;
  paid_amount : Z;
}.

Record ClaimSegment : Type := {
  index : cell;
}.

Section TransactionSet.

(** The interchange header is stored and never read by this module. *)
Context {InterchangeSegment : Type}.

(** [ReferenceSegment] and its [__str__]. *)
Context {ReferenceSegment : Type} (str : ReferenceSegment -> string).

Record ServiceLoop : Type := {
  service : ServiceSegment;
  service_period_start : option DateSegment;
  service_period_end : option DateSegment;
  remark : option RemarkSegment;
  references : list ReferenceSegment;
  adjustments : list ServiceAdjustment;
}.

Record ClaimLoop : Type := {
  claim : ClaimSegment;
  patient : EntitySegment;
  claim_statement_period_start : option DateSegment;
  claim_statement_period_end : option DateSegment;
  rendering_provider : option EntitySegment;
  services : list ServiceLoop;
}.

(** [build] leaves [interchange] and [financial_information] at [None]
    when the document has no such segment. *)
Record TransactionSet : Type := {
  interchange : option InterchangeSegment;
  financial_information : option FinancialInformationSegment;
  claims : list ClaimLoop;
  organizations : list OrganizationLoop;
}.

(** ** Payer lookup *)

Definition is_payer (o : OrganizationLoop) : bool :=
  bool_decide (type (organization o) = "payer").

(** [TransactionSet.payer], with assertions on, as the interpreter runs
    them unless told otherwise. *)
Definition payer (self : TransactionSet) : result OrganizationLoop :=
  let payer := List.filter is_payer (organizations self) in
  if bool_decide (length payer = 1%nat) then
    match payer !! 0%nat with
    | Some o => Ok o
    | None => Raise IndexError
    end
  else Raise AssertionError.

(** ** Flattening *)

(** [TransactionSet.add_line_item]: the copy is the map itself. *)
Definition add_line_item (service : gmap string cell) (amount : Z)
    (type : string) (group reason : option string) : gmap string cell :=
  let service := service in
  let service := <["amount" := VInt amount]> service in
  let service := <["type" := VStr type]> service in
  let service := <["group" := of_optional_str group]> service in
  let service := <["reason" := of_optional_str reason]> service in
  service.

(** [TransactionSet.serialize_service].  The only attribute access that
    can miss is [financial_information.transaction_date], on [None]. *)
Definition serialize_service
    (financial_information : option FinancialInformationSegment)
    (payer : OrganizationLoop) (clm : ClaimLoop) (svc : ServiceLoop)
    : result (gmap string cell) :=
  let remark :=
    match remark svc with
    | Some r => VStr (qualifier r +:+ ": " +:+ code r)
    | None => VNone
    end in
  let reference :=
    match references svc with
    | [] => VNone
    | rs => VStr (join ", " (str <$> rs))
    end in
  let start_date :=
    match service_period_start svc with
    | Some d => date d
    | None =>
        match claim_statement_period_start clm with
        | Some d => date d
        | None => VNone
        end
    end in
  let end_date :=
    match service_period_end svc with
    | Some d => date d
    | None =>
        match claim_statement_period_end clm with
        | Some d => date d
        | None => VNone
        end
    end in
  transaction_date ←
    match financial_information with
    | Some fi => Ok (transaction_date fi)
    | None => Raise AttributeError
    end;
  let datum : gmap string cell :=
    <["rendering_provider" :=
        match rendering_provider clm with
        | Some e => entity_name e
        | None => VNone
        end]>
    (<["reference" := reference]>
    (<["remark" := remark]>
    (<["end_date" := end_date]>
    (<["start_date" := start_date]>
    (<["payer" := name (organization payer)]>
    (<["charge_amount" := charge_amount (service svc)]>
    (<["transaction_date" := transaction_date]>
    (<["units" := units (service svc)]>
    (<["code" := service_code (service svc)]>
    (<["patient" := entity_name (patient clm)]>
    (<["claim_index" := index (claim clm)]> ∅))))))))))) in
  Ok datum.

(** A [for] loop over a list whose body updates the loop state and may
    raise. *)
Fixpoint for_each {A S : Type} (l : list A) (body : A -> S -> result S)
    (s : S) : result S :=
  match l with
  | [] => Ok s
  | x :: l' => s' ← body x s; for_each l' body s'
  end.

(** [TransactionSet.to_dataframe]; the data frame is the list of row
    dictionaries it is made from, [data.append(datum)] is [data ++ [datum]]. *)
Definition to_dataframe (self : TransactionSet)
    : result (list (gmap string cell)) :=
  let data := [] in
  for_each (claims self) (fun clm data =>
    for_each (services clm) (fun svc data =>
      payer ← payer self;
      serialized_service ←
        serialize_service (financial_information self) payer clm svc;
      let datum :=
        add_line_item serialized_service (paid_amount (service svc))
          "payment" None None in
      let data := data ++ [datum] in
      for_each (adjustments svc) (fun adjustment data =>
        let datum :=
          add_line_item serialized_service (amount adjustment) "adjustment"
            (Some (group_code adjustment)) (Some (reason_code adjustment)) in
        Ok (data ++ [datum])) data) data) data.

End TransactionSet.

(** ** Segment tokenizer *)

(** [str.isspace] on one character.  A character is a code point below
    256; the white space among those is TAB..CR, FS..US, SPACE, NEL and
    NO-BREAK SPACE. *)
Definition isspace (c : ascii) : bool :=
  let n := N_of_ascii c in
  ((9 <=? n) && (n <=? 13) || (28 <=? n) && (n <=? 32)
   || (n =? 133) || (n =? 160))%N.

(** [s.split(sep)] for a separator of one character: the pieces between
    the separators, one more than there are separators. *)
Fixpoint split (sep : ascii) (s : string) : list string :=
  match s with
  | EmptyString => [EmptyString]
  | String c rest =>
      if bool_decide (c = sep) then EmptyString :: split sep rest
      else
        match split sep rest with
        | piece :: pieces => String c piece :: pieces
        | [] => [String c EmptyString]
        end
  end.

Fixpoint lstrip (s : string) : string :=
  match s with
  | EmptyString => EmptyString
  | String c rest => if isspace c then lstrip rest else s
  end.

Fixpoint rstrip (s : string) : string :=
  match s with
  | EmptyString => EmptyString
  | String c rest =>
      match rstrip rest with
      | EmptyString => if isspace c then EmptyString else String c EmptyString
      | kept => String c kept
      end
  end.

(** [s.strip()] *)
Definition strip (s : string) : string := rstrip (lstrip s).

(** The first statements of [TransactionSet.build], on the text read from
    the file: [file.split('~')], then [segment.strip()] on every piece. *)
Definition tokenize (file : string) : list string :=
  let segments := split "~" file in
  let segments := strip <$> segments in
  segments.

(** The tokenizer as section 4.1 of the specification words it: split,
    trim, and discard the pieces that are empty after trimming. *)
Definition tokenize_discarding (file : string) : list string :=
  List.filter (fun piece => negb (bool_decide (piece = EmptyString)))
    (strip <$> split "~" file).

(** ** Transaction set builder *)

(** Modelled from the spec: the collaborators [transaction_set.py] imports
    and calls but which are defined in other modules.  [find_identifier]
    is the identifier classifier of section 4.2; the segment classes give a
    fixed [identification] and a constructor from the raw segment; the
    loop classes give a fixed [initiating_identifier] and the [build]
    factory of section 4.4, which returns the built loop, the cursor (or
    [None]) and the leftover segment (or [None]). *)
Class Collaborators (InterchangeSegment ReferenceSegment : Type) : Type := {
  find_identifier : string -> string;
  InterchangeSegment_identification : string;
  InterchangeSegment_new : string -> InterchangeSegment;
  FinancialInformationSegment_identification : string;
  FinancialInformationSegment_new : string -> FinancialInformationSegment;
  OrganizationLoop_initiating_identifier : string;
  OrganizationLoop_build :
    string -> list string ->
    OrganizationLoop * option (list string) * option string;
  ClaimLoop_initiating_identifier : string;
  ClaimLoop_build :
    string -> list string ->
    @ClaimLoop ReferenceSegment * option (list string) * option string;
}.

Section Builder.

Context {InterchangeSegment ReferenceSegment : Type}.
Context {collaborators : Collaborators InterchangeSegment ReferenceSegment}.

(** What [BuildAttributeResponse.value] can hold. *)
Inductive attribute : Type :=
  | an_interchange (i : InterchangeSegment)
  | a_financial_information (f : FinancialInformationSegment)
  | an_organization (o : OrganizationLoop)
  | a_claim (c : @ClaimLoop ReferenceSegment).

Record BuildAttributeResponse : Type := {
  key : option string;
  value : option attribute;
  segment : option string;
  segments : option (list string);
}.

(** [TransactionSet.build_attribute].  The cursor [segments] is the list
    of the tokens not pulled yet.  [pull] is the first statement: with no
    segment in hand, [segments.__next__()] takes the head of the cursor and
    raises [StopIteration] on the empty list, which is caught. *)
Definition pull (segment : option string) (segments : list string)
    : option (string * list string) :=
  match segment with
  | None =>
      match segments with
      | next :: segments => Some (next, segments)
      | [] => None
      end
  | Some segment => Some (segment, segments)
  end.

Definition build_attribute (segment : option string) (segments : list string)
    : BuildAttributeResponse :=
  match pull segment segments with
  | None => Build_BuildAttributeResponse None None None None
  | Some (segment, segments) =>
      let identifier := find_identifier segment in
      if bool_decide (identifier = InterchangeSegment_identification) then
        let interchange := InterchangeSegment_new segment in
        Build_BuildAttributeResponse
          (Some "interchange") (Some (an_interchange interchange))
          None (Some segments)
      else if bool_decide
                (identifier = FinancialInformationSegment_identification) then
        let financial_information := FinancialInformationSegment_new segment in
        Build_BuildAttributeResponse
          (Some "financial information")
          (Some (a_financial_information financial_information))
          None (Some segments)
      else if bool_decide
                (identifier = OrganizationLoop_initiating_identifier) then
        let '(organization, segments, segment) :=
          OrganizationLoop_build segment segments in
        Build_BuildAttributeResponse
          (Some "organization") (Some (an_organization organization))
          segment segments
      else if bool_decide (identifier = ClaimLoop_initiating_identifier) then
        let '(claim, segments, segment) := ClaimLoop_build segment segments in
        Build_BuildAttributeResponse
          (Some "claim") (Some (a_claim claim)) segment segments
      else
        Build_BuildAttributeResponse None None None (Some segments)
  end.

(** The local variables of [TransactionSet.build] while its loop runs. *)
Record build_state : Type := {
  st_interchange : option InterchangeSegment;
  st_financial_information : option FinancialInformationSegment;
  st_claims : list (@ClaimLoop ReferenceSegment);
  st_organizations : list OrganizationLoop;
  st_segment : option string;
  st_segments : list string;
}.

Inductive control : Type :=
  | Continue (st : build_state)
  | Break (st : build_state).

(** One pass through the body of [while True].  [response.value] goes to
    the variable the key names; [build_attribute] pairs every key with a
    value of the class that variable holds. *)
Definition build_iteration (st : build_state) : control :=
  let response := build_attribute (st_segment st) (st_segments st) in
  let segment := segment response in
  match segments response with
  | None =>
      Break {| st_interchange := st_interchange st;
               st_financial_information := st_financial_information st;
               st_claims := st_claims st;
               st_organizations := st_organizations st;
               st_segment := segment;
               st_segments := [] |}
  | Some segments =>
      let interchange :=
        if bool_decide (key response = Some "interchange") then
          match value response with
          | Some (an_interchange i) => Some i
          | _ => None
          end
        else st_interchange st in
      let financial_information :=
        if bool_decide (key response = Some "financial information") then
          match value response with
          | Some (a_financial_information f) => Some f
          | _ => None
          end
        else st_financial_information st in
      let organizations :=
        if bool_decide (key response = Some "organization") then
          match value response with
          | Some (an_organization o) => st_organizations st ++ [o]
          | _ => st_organizations st
          end
        else st_organizations st in
      let claims :=
        if bool_decide (key response = Some "claim") then
          match value response with
          | Some (a_claim c) => st_claims st ++ [c]
          | _ => st_claims st
          end
        else st_claims st in
      Continue {| st_interchange := interchange;
                  st_financial_information := financial_information;
                  st_claims := claims;
                  st_organizations := organizations;
                  st_segment := segment;
                  st_segments := segments |}
  end.

(** [while True] with a bound on the number of passes; [None] when the
    bound is reached before a [break]. *)
Fixpoint build_loop (fuel : nat) (st : build_state) : option build_state :=
  match fuel with
  | O => None
  | S fuel =>
      match build_iteration st with
      | Break st' => Some st'
      | Continue st' => build_loop fuel st'
      end
  end.

Definition initial_state (segments : list string) : build_state :=
  {| st_interchange := None;
     st_financial_information := None;
     st_claims := [];
     st_organizations := [];
     st_segment := None;
     st_segments := segments |}.

Definition transaction_set_of (st : build_state)
    : @TransactionSet InterchangeSegment ReferenceSegment :=
  {| interchange := st_interchange st;
     financial_information := st_financial_information st;
     claims := st_claims st;
     organizations := st_organizations st |}.

(** What a pass can take: two units for each token left on the cursor,
    one for a pending segment. *)
Definition remaining (st : build_state) : nat :=
  (2 * length (st_segments st)
   + match st_segment st with Some _ => 1 | None => 0 end)%nat.

(** [TransactionSet.build], from the text of the file.  The loop is given
    more passes than [remaining] allows it to make. *)
Definition build (file : string)
    : option (@TransactionSet InterchangeSegment ReferenceSegment) :=
  let segments := tokenize file in
  let st := initial_state segments in
  transaction_set_of <$> build_loop (S (remaining st)) st.

(** The tokens still to be dispatched: the pending segment, then the
    cursor. *)
Definition pending_tokens (st : build_state) : list string :=
  option_list (st_segment st) ++ st_segments st.

Definition is_interchange (token : string) : bool :=
  bool_decide (find_identifier token = InterchangeSegment_identification).

Definition is_financial_information (token : string) : bool :=
  bool_decide
    (find_identifier token = FinancialInformationSegment_identification).

(** What the last token with the identification of a header segment
    makes, in a sequence of tokens. *)
Definition last_interchange (tokens : list string)
    : option InterchangeSegment :=
  InterchangeSegment_new <$> last (List.filter is_interchange tokens).

Definition last_financial_information (tokens : list string)
    : option FinancialInformationSegment :=
  FinancialInformationSegment_new
    <$> last (List.filter is_financial_information tokens).

(** The identifiers the dispatcher knows. *)
Definition recognized : list string :=
  [InterchangeSegment_identification;
   FinancialInformationSegment_identification;
   OrganizationLoop_initiating_identifier;
   ClaimLoop_initiating_identifier].

End Builder.

(** Modelled from the spec: what section 4.4 asks of the [build] factory
    of a loop, which is not among the sources.  From the starting segment
    and the cursor it returns the loop, the advanced cursor and the
    leftover; the cursor it was given is, in order, the segments the loop
    took as members, the leftover if there is one, and the cursor it
    returns.  [owns] holds of the members. *)
Definition conforms {A : Type} (owns : string -> Prop)
    (build_fn :
       string -> list string -> A * option (list string) * option string)
    : Prop :=
  forall start cursor, exists loop members leftover rest,
    build_fn start cursor = (loop, Some rest, leftover)
    /\ cursor = members ++ option_list leftover ++ rest
    /\ Forall owns members.

(** ** Vocabulary of the statements *)

Section Rows.

Context {InterchangeSegment ReferenceSegment : Type}.
Context (str : ReferenceSegment -> string).

(** The dictionary [serialize_service] returns when the financial
    information is there. *)
Definition base_record (fi : FinancialInformationSegment)
    (p : OrganizationLoop) (clm : @ClaimLoop ReferenceSegment)
    (svc : ServiceLoop) : gmap string cell :=
  match serialize_service str (Some fi) p clm svc with
  | Ok datum => datum
  | Raise _ => ∅
  end.

(** The rows of one service: its payment, then its adjustments. *)
Definition line_items (base : gmap string cell)
    (svc : @ServiceLoop ReferenceSegment) : list (gmap string cell) :=
  add_line_item base (paid_amount (service svc)) "payment" None None
  :: ((fun adjustment =>
         add_line_item base (amount adjustment) "adjustment"
           (Some (group_code adjustment)) (Some (reason_code adjustment)))
      <$> adjustments svc).

Definition rows_of (fi : FinancialInformationSegment) (p : OrganizationLoop)
    (clms : list (@ClaimLoop ReferenceSegment)) : list (gmap string cell) :=
  clm ← clms; svc ← services clm; line_items (base_record fi p clm svc) svc.

(** Every service with the claim that holds it, in document order. *)
Definition claim_services
    (self : @TransactionSet InterchangeSegment ReferenceSegment)
    : list (@ClaimLoop ReferenceSegment * @ServiceLoop ReferenceSegment) :=
  clm ← claims self; svc ← services clm; [(clm, svc)].

(** The claim and service each row comes from: a service stands once for
    its payment and once for each of its adjustments. *)
Definition row_sources
    (self : @TransactionSet InterchangeSegment ReferenceSegment)
    : list (@ClaimLoop ReferenceSegment * @ServiceLoop ReferenceSegment) :=
  cs ← claim_services self; replicate (S (length (adjustments cs.2))) cs.

Definition no_services
    (self : @TransactionSet InterchangeSegment ReferenceSegment) : Prop :=
  Forall (fun clm => services clm = []) (claims self).

(** [data[data.type == 'payment'].amount.sum()] *)
Definition is_payment (row : gmap string cell) : bool :=
  bool_decide (row !! "type" = Some (VStr "payment")).

Definition amount_of (row : gmap string cell) : Z :=
  match row !! "amount" with
  | Some (VInt n) => n
  | _ => 0
  end.

Definition sum_payment_rows (rows : list (gmap string cell)) : Z :=
  foldr (fun row acc => amount_of row + acc) 0 (List.filter is_payment rows).

(** The sum of [paid_amount] over the services of the claims. *)
Definition sum_paid_amounts
    (self : @TransactionSet InterchangeSegment ReferenceSegment) : Z :=
  foldr (fun cs acc => paid_amount (service cs.2) + acc) 0
    (claim_services self).

(** The four columns [add_line_item] writes. *)
Definition line_item_columns : list string :=
  ["amount"; "type"; "group"; "reason"].

(** The start and end dates a row is to carry. *)
Definition expected_start_date (clm : @ClaimLoop ReferenceSegment)
    (svc : @ServiceLoop ReferenceSegment) : cell :=
  match service_period_start svc, claim_statement_period_start clm with
  | Some own, _ => date own
  | None, Some statement => date statement
  | None, None => VNone
  end.

Definition expected_end_date (clm : @ClaimLoop ReferenceSegment)
    (svc : @ServiceLoop ReferenceSegment) : cell :=
  match service_period_end svc, claim_statement_period_end clm with
  | Some own, _ => date own
  | None, Some statement => date statement
  | None, None => VNone
  end.

(** The body of the loop over the services of [clm] in [to_dataframe]. *)
Definition service_pass
    (ts : @TransactionSet InterchangeSegment ReferenceSegment)
    (clm : ClaimLoop) (svc : ServiceLoop)
    (data : list (gmap string cell))
    : result (list (gmap string cell)) :=
  payer ← payer ts;
  serialized_service ←
    serialize_service str (financial_information ts) payer clm svc;
  let datum :=
    add_line_item serialized_service (paid_amount (service svc))
      "payment" None None in
  let data := data ++ [datum] in
  for_each (adjustments svc) (fun adjustment data =>
    let datum :=
      add_line_item serialized_service (amount adjustment) "adjustment"
        (Some (group_code adjustment)) (Some (reason_code adjustment)) in
    Ok (data ++ [datum])) data.

(** What the first service met raises, if it raises. *)
Definition first_failure
    (ts : @TransactionSet InterchangeSegment ReferenceSegment)
    : option exception :=
  match payer ts, financial_information ts with
  | Raise e, _ => Some e
  | Ok _, None => Some AttributeError
  | Ok _, Some _ => None
  end.

(** [row] is [base] extended with the four line item columns. *)
Definition extends (base row : gmap string cell) (amount : Z) (type : string)
    (group reason : cell) : Prop :=
  row !! "amount" = Some (VInt amount)
  /\ row !! "type" = Some (VStr type)
  /\ row !! "group" = Some group
  /\ row !! "reason" = Some reason
  /\ forall column : string,
       column ∉ line_item_columns -> row !! column = base !! column.

End Rows.

(** Vocabulary: how often a character occurs, strings of white space, the
    first and the last character of a string. *)
Fixpoint occurrences (c : ascii) (s : string) : nat :=
  match s with
  | EmptyString => 0%nat
  | String c' rest =>
      ((if bool_decide (c' = c) then 1 else 0) + occurrences c rest)%nat
  end.

Fixpoint blank (s : string) : bool :=
  match s with
  | EmptyString => true
  | String c rest => isspace c && blank rest
  end.

Definition first_char (s : string) : option ascii :=
  match s with
  | EmptyString => None
  | String c _ => Some c
  end.

Fixpoint last_char (s : string) : option ascii :=
  match s with
  | EmptyString => None
  | String c EmptyString => Some c
  | String _ rest => last_char rest
  end.

(** [token] is [piece] without the white space at its two ends. *)
Definition trimmed (piece token : string) : Prop :=
  (exists left right,
      piece = left +:+ token +:+ right
      /\ blank left = true /\ blank right = true)
  /\ (forall c, first_char token = Some c -> isspace c = false)
  /\ (forall c, last_char token = Some c -> isspace c = false).

(** ** A catalogue to run the builder on *)

(** Modelled from the spec: the identifier classifier of section 4.2, the
    leading token of a segment up to the first field delimiter. *)
Fixpoint leading_identifier (segment : string) : string :=
  match segment with
  | EmptyString => EmptyString
  | String c rest =>
      if bool_decide (c = "*"%char) then EmptyString
      else String c (leading_identifier rest)
  end.

(** Modelled from the spec: the trailing scan of a loop builder, section
    4.4.  It pulls tokens while their identifier is one the loop owns,
    hands back the first token it does not own as the leftover, and ends
    with no leftover when the cursor empties. *)
Fixpoint trailing_scan (owned : list string) (cursor : list string)
    : list string * option (list string) * option string :=
  match cursor with
  | [] => ([], Some [], None)
  | token :: cursor' =>
      if bool_decide (leading_identifier token ∈ owned) then
        let '(members, cursor'', leftover) := trailing_scan owned cursor' in
        (token :: members, cursor'', leftover)
      else ([], Some cursor', Some token)
  end.

Definition field (n : nat) (segment : string) : string :=
  default EmptyString (split "*" segment !! n).

(** Modelled from the spec: an organization loop.  [N1*PR*name] opens the
    loop of a payer, [N1*PE*name] that of a payee; [N3], [N4], [REF] and
    [PER] segments belong to it. *)
Definition sample_OrganizationLoop_build (segment : string)
    (cursor : list string)
    : OrganizationLoop * option (list string) * option string :=
  let '(_, cursor', leftover) :=
    trailing_scan ["N3"; "N4"; "REF"; "PER"] cursor in
  ({| organization :=
        {| type := if bool_decide (field 1 segment = "PR") then "payer"
                   else "payee";
           name := VStr (field 2 segment) |} |},
   cursor', leftover).

(** Modelled from the spec: a claim loop that owns the patient and date
    segments after [CLP] and records no service. *)
Definition sample_ClaimLoop_build (segment : string) (cursor : list string)
    : @ClaimLoop string * option (list string) * option string :=
  let '(_, cursor', leftover) := trailing_scan ["NM1"; "DTM"; "MIA"] cursor in
  ({| claim := {| index := VStr (field 1 segment) |};
      patient := {| entity_name := VNone |};
      claim_statement_period_start := None;
      claim_statement_period_end := None;
      rendering_provider := None;
      services := [] |},
   cursor', leftover).

(** The interchange header kept as its raw segment, the transaction date
    read from the sixteenth field of [BPR]. *)
Definition sample_collaborators : Collaborators string string :=
  {| find_identifier := leading_identifier;
     InterchangeSegment_identification := "ISA";
     InterchangeSegment_new := fun segment => segment;
     FinancialInformationSegment_identification := "BPR";
     FinancialInformationSegment_new := fun segment =>
       {| transaction_date := VStr (field 16 segment) |};
     OrganizationLoop_initiating_identifier := "N1";
     OrganizationLoop_build := sample_OrganizationLoop_build;
     ClaimLoop_initiating_identifier := "CLP";
     ClaimLoop_build := sample_ClaimLoop_build |}.

(** The segments the two sample loops own. *)
Definition sample_owns (member : string) : Prop :=
  leading_identifier member ∈ ["N3"; "N4"; "REF"; "PER"; "NM1"; "DTM"; "MIA"].

(** Three interchange segments and two financial information segments,
    with an organization loop and a claim loop between them. *)
Definition sample_document : string :=
  "ISA*00~ISA*01~"
  +:+ "BPR*I*10*C*ACH*CCP*01*1*DA*2*3**01*4*DA*5*20190201~"
  +:+ "N1*PR*INSURER~N3*1 MAIN ST~"
  +:+ "BPR*H*0*C*NON************20190315~"
  +:+ "CLP*7~NM1*QC~ISA*02~".

(** A document with a payee and no payer. *)
Definition sample_document_payee : string := "ISA*00~N1*PE*CLINIC~SE*2~".

(** The scenario of section 8: one payer, one claim, one service paid 50
    with one adjustment of 10, group CO, reason 45. *)
Definition sample_service : @ServiceLoop string :=
  {| service := {| service_code := VStr "HC:99213"; units := VInt 1;
                   charge_amount := VInt 60; paid_amount := 50 |};
     service_period_start := None;
     service_period_end := Some {| date := VStr "20190102" |};
     remark := None;
     references := [];
     adjustments :=
       [{| amount := 10; group_code := "CO"; reason_code := "45" |}] |}.

Definition sample_claim : @ClaimLoop string :=
  {| claim := {| index := VInt 0 |};
     patient := {| entity_name := VStr "DOE JANE" |};
     claim_statement_period_start := Some {| date := VStr "20190101" |};
     claim_statement_period_end := Some {| date := VStr "20190131" |};
     rendering_provider := None;
     services := [sample_service] |}.

Definition sample_payer : OrganizationLoop :=
  {| organization := {| type := "payer"; name := VStr "INSURER" |} |}.

Definition sample_payee : OrganizationLoop :=
  {| organization := {| type := "payee"; name := VStr "CLINIC" |} |}.

Definition sample_set : @TransactionSet string string :=
  {| interchange := Some "ISA*00";
     financial_information := Some {| transaction_date := VStr "20190201" |};
     claims := [sample_claim];
     organizations := [sample_payer; sample_payee] |}.

(** The same claims and payer with no interchange and no financial
    information. *)
Definition sample_set_headless : @TransactionSet string string :=
  {| interchange := None;
     financial_information := None;
     claims := [sample_claim];
     organizations := [sample_payer] |}.

(** A claim without services, two payers, no header. *)
Definition sample_set_empty : @TransactionSet string string :=
  {| interchange := None;
     financial_information := None;
     claims :=
       [{| claim := {| index := VInt 0 |};
           patient := {| entity_name := VStr "DOE JANE" |};
           claim_statement_period_start := None;
           claim_statement_period_end := None;
           rendering_provider := None;
           services := [] |}];
     organizations := [sample_payer; sample_payer] |}.

(** ** Vocabulary of the further statements *)

Section MoreRows.

Context {InterchangeSegment ReferenceSegment : Type}.

(** The columns of a row: the twelve of [serialize_service] and the four
    of [add_line_item]. *)
Definition row_columns : gset string :=
  list_to_set
    ["claim_index"; "patient"; "code"; "units"; "transaction_date";
     "charge_amount"; "payer"; "start_date"; "end_date"; "remark";
     "reference"; "rendering_provider"; "amount"; "type"; "group"; "reason"].

(** The transaction set with other claims. *)
Definition with_claims
    (self : @TransactionSet InterchangeSegment ReferenceSegment)
    (clms : list (@ClaimLoop ReferenceSegment))
    : @TransactionSet InterchangeSegment ReferenceSegment :=
  {| interchange := interchange self;
     financial_information := financial_information self;
     claims := clms;
     organizations := organizations self |}.

(** The transaction set with other organizations. *)
Definition with_organizations
    (self : @TransactionSet InterchangeSegment ReferenceSegment)
    (orgs : list OrganizationLoop)
    : @TransactionSet InterchangeSegment ReferenceSegment :=
  {| interchange := interchange self;
     financial_information := financial_information self;
     claims := claims self;
     organizations := orgs |}.

(** The number of adjustments of all the services. *)
Definition adjustment_count
    (self : @TransactionSet InterchangeSegment ReferenceSegment) : nat :=
  sum_list ((fun cs => length (adjustments cs.2)) <$> claim_services self).

(** [data[data.type == 'adjustment'].amount.sum()] *)
Definition is_adjustment (row : gmap string cell) : bool :=
  bool_decide (row !! "type" = Some (VStr "adjustment")).

Definition sum_adjustment_rows (rows : list (gmap string cell)) : Z :=
  foldr (fun row acc => amount_of row + acc) 0
    (List.filter is_adjustment rows).

(** The sum of [amount] over the adjustments of the services. *)
Definition sum_adjustment_amounts
    (self : @TransactionSet InterchangeSegment ReferenceSegment) : Z :=
  foldr (fun cs acc =>
           foldr (fun adjustment acc' => amount adjustment + acc') 0
             (adjustments cs.2) + acc)
    0 (claim_services self).

End MoreRows.

Section MoreBuilder.

Context {InterchangeSegment ReferenceSegment : Type}.
Context {collaborators : Collaborators InterchangeSegment ReferenceSegment}.

(** The branch of [build_attribute] a segment takes: the tests are made
    in this order and the first that holds decides. *)
Inductive branch : Type :=
  | to_interchange
  | to_financial_information
  | to_organization
  | to_claim
  | to_nothing.

#[global] Instance branch_eq_dec : EqDecision branch.
Proof. solve_decision. Defined.

Definition dispatch (segment : string) : branch :=
  let identifier := find_identifier segment in
  if bool_decide (identifier = InterchangeSegment_identification) then
    to_interchange
  else if bool_decide
            (identifier = FinancialInformationSegment_identification) then
    to_financial_information
  else if bool_decide
            (identifier = OrganizationLoop_initiating_identifier) then
    to_organization
  else if bool_decide (identifier = ClaimLoop_initiating_identifier) then
    to_claim
  else to_nothing.

Definition takes (b : branch) (token : string) : bool :=
  bool_decide (dispatch token = b).

(** The loops the factories build along a sequence of tokens: at each
    token that opens a loop, the loop the factory makes of that token and
    of the tokens after it. *)
Fixpoint organizations_of (tokens : list string) : list OrganizationLoop :=
  match tokens with
  | [] => []
  | token :: cursor =>
      (if takes to_organization token
       then [(OrganizationLoop_build token cursor).1.1] else [])
      ++ organizations_of cursor
  end.

Fixpoint claims_of (tokens : list string)
    : list (@ClaimLoop ReferenceSegment) :=
  match tokens with
  | [] => []
  | token :: cursor =>
      (if takes to_claim token
       then [(ClaimLoop_build token cursor).1.1] else [])
      ++ claims_of cursor
  end.

(** The header a sequence of tokens leaves: what the last token taking
    the branch of that header makes, if there is one. *)
Definition interchange_of (tokens : list string)
    : option InterchangeSegment :=
  InterchangeSegment_new <$> last (List.filter (takes to_interchange) tokens).

Definition financial_information_of (tokens : list string)
    : option FinancialInformationSegment :=
  FinancialInformationSegment_new
    <$> last (List.filter (takes to_financial_information) tokens).

End MoreBuilder.

(** A catalogue whose organization factory answers with no cursor, the
    way [build_attribute] itself does, when its scan reaches the end of
    the cursor. *)
Definition sample_OrganizationLoop_build_to_the_end (segment : string)
    (cursor : list string)
    : OrganizationLoop * option (list string) * option string :=
  let '(organization, cursor', leftover) :=
    sample_OrganizationLoop_build segment cursor in
  match leftover with
  | Some _ => (organization, cursor', leftover)
  | None => (organization, None, None)
  end.

Definition sample_collaborators_to_the_end : Collaborators string string :=
  {| find_identifier := leading_identifier;
     InterchangeSegment_identification := "ISA";
     InterchangeSegment_new := fun segment => segment;
     FinancialInformationSegment_identification := "BPR";
     FinancialInformationSegment_new := fun segment =>
       {| transaction_date := VStr (field 16 segment) |};
     OrganizationLoop_initiating_identifier := "N1";
     OrganizationLoop_build := sample_OrganizationLoop_build_to_the_end;
     ClaimLoop_initiating_identifier := "CLP";
     ClaimLoop_build := sample_ClaimLoop_build |}.

(** A document of header and trailer segments only, closed by a
    delimiter. *)
Definition sample_document_flat : string :=
  "ISA*00~BPR*H*0*C*NON************20190315~ST*835~SE*2~".


(** * Properties *)

(** ** Payer lookup and flattening *)

Section FlattenProperties.

Context {InterchangeSegment ReferenceSegment : Type}.
Context (str : ReferenceSegment -> string).

Abbreviation TSet := (@TransactionSet InterchangeSegment ReferenceSegment).
Abbreviation Row := (gmap string cell).

Lemma payer_unfold (ts : TSet) :
  payer ts =
    match List.filter is_payer (organizations ts) with
    | [o] => Ok o
    | _ => Raise AssertionError
    end.
Proof.
  unfold payer.
  destruct (List.filter is_payer (organizations ts)) as [|o [|o' l]];
    reflexivity.
Qed.

(** C1.  The payer lookup returns an organization exactly when the
    organizations of type payer are that one organization, and raises the
    assertion error exactly when their number is not one: none, or two and
    more.  These are the only outcomes.  The lookup reads the organizations
    of a transaction set that is already built; no organization list is
    refused a transaction set. *)
Theorem payer_exactly_one (ts : TSet) :
  (forall o, payer ts = Ok o <-> List.filter is_payer (organizations ts) = [o])
  /\ (payer ts = Raise AssertionError
      <-> length (List.filter is_payer (organizations ts)) <> 1%nat)
  /\ (forall i fi clms orgs, exists ts' : TSet,
        interchange ts' = i /\ financial_information ts' = fi
        /\ claims ts' = clms /\ organizations ts' = orgs).
Proof.
  rewrite payer_unfold.
  split; [|split].
  - intros o.
    destruct (List.filter is_payer (organizations ts)) as [|o1 [|o2 l]];
      split; intros E; simplify_eq; done.
  - destruct (List.filter is_payer (organizations ts)) as [|o1 [|o2 l]];
      split; intros E; simplify_eq/=; done.
  - intros i fi clms orgs.
    by exists {| interchange := i; financial_information := fi;
                 claims := clms; organizations := orgs |}.
Qed.

Lemma for_each_adjustments (f : ServiceAdjustment -> Row)
    (adjs : list ServiceAdjustment) (data : list Row) :
  for_each adjs (fun adjustment data => Ok (data ++ [f adjustment])) data
  = Ok (data ++ (f <$> adjs)).
Proof.
  revert data. induction adjs as [|a adjs IH]; intros data; simpl.
  - by rewrite app_nil_r.
  - unfold mbind, result_bind. rewrite IH. by rewrite <- app_assoc.
Qed.

Lemma serialize_service_present fi p clm (svc : ServiceLoop) :
  serialize_service str (Some fi) p clm svc = Ok (base_record str fi p clm svc).
Proof. reflexivity. Qed.

Lemma serialize_service_absent p clm (svc : ServiceLoop) :
  serialize_service str None p clm svc = Raise AttributeError.
Proof. reflexivity. Qed.

Lemma to_dataframe_unfold (ts : TSet) :
  to_dataframe str ts =
    for_each (claims ts)
      (fun clm data => for_each (services clm) (service_pass str ts clm) data)
      [].
Proof. reflexivity. Qed.

Lemma service_pass_ok (ts : TSet) p fi clm svc data :
  payer ts = Ok p -> financial_information ts = Some fi ->
  service_pass str ts clm svc data
  = Ok (data ++ line_items (base_record str fi p clm svc) svc).
Proof.
  intros Hp Hfi. unfold service_pass. rewrite Hp, Hfi. simpl.
  rewrite for_each_adjustments. by rewrite <- app_assoc.
Qed.

Lemma service_pass_no_payer (ts : TSet) e clm svc data :
  payer ts = Raise e -> service_pass str ts clm svc data = Raise e.
Proof. intros Hp. unfold service_pass. by rewrite Hp. Qed.

Lemma service_pass_no_financial (ts : TSet) p clm svc data :
  payer ts = Ok p -> financial_information ts = None ->
  service_pass str ts clm svc data = Raise AttributeError.
Proof. intros Hp Hfi. unfold service_pass. by rewrite Hp, Hfi. Qed.

Lemma service_pass_failure (ts : TSet) e clm svc data :
  first_failure ts = Some e -> service_pass str ts clm svc data = Raise e.
Proof.
  unfold first_failure. intros H.
  destruct (payer ts) as [p|e'] eqn:Hp.
  - destruct (financial_information ts) eqn:Hfi; [done|].
    simplify_eq. by eapply service_pass_no_financial.
  - simplify_eq. by apply service_pass_no_payer.
Qed.

Lemma services_loop_ok (ts : TSet) p fi clm svcs data :
  payer ts = Ok p -> financial_information ts = Some fi ->
  for_each svcs (service_pass str ts clm) data
  = Ok (data ++ (svc ← svcs; line_items (base_record str fi p clm svc) svc)).
Proof.
  intros Hp Hfi. revert data.
  induction svcs as [|svc svcs IH]; intros data; simpl.
  - by rewrite app_nil_r.
  - rewrite (service_pass_ok ts p fi) by done. simpl.
    rewrite IH. by rewrite <- app_assoc.
Qed.

Lemma services_loop_failure (ts : TSet) e clm svcs data :
  first_failure ts = Some e -> svcs <> [] ->
  for_each svcs (service_pass str ts clm) data = Raise e.
Proof.
  intros He Hne. destruct svcs as [|svc svcs]; [done|]. simpl.
  by rewrite (service_pass_failure ts e).
Qed.

Lemma claims_loop_ok (ts : TSet) p fi clms data :
  payer ts = Ok p -> financial_information ts = Some fi ->
  for_each clms
    (fun clm data => for_each (services clm) (service_pass str ts clm) data)
    data
  = Ok (data ++ rows_of str fi p clms).
Proof.
  intros Hp Hfi. revert data.
  induction clms as [|clm clms IH]; intros data; simpl.
  - by rewrite app_nil_r.
  - rewrite (services_loop_ok ts p fi) by done. simpl.
    rewrite IH. unfold rows_of. simpl. by rewrite <- app_assoc.
Qed.

Lemma claims_loop_no_services (ts : TSet) clms data :
  Forall (fun clm : ClaimLoop => services clm = []) clms ->
  for_each clms
    (fun clm data => for_each (services clm) (service_pass str ts clm) data)
    data
  = Ok data.
Proof.
  induction 1 as [|clm clms Hclm _ IH]; simpl; [done|].
  by rewrite Hclm.
Qed.

Lemma claims_loop_failure (ts : TSet) e clms data :
  first_failure ts = Some e ->
  ~ Forall (fun clm : ClaimLoop => services clm = []) clms ->
  for_each clms
    (fun clm data => for_each (services clm) (service_pass str ts clm) data)
    data
  = Raise e.
Proof.
  intros He. induction clms as [|clm clms IH]; intros Hsome; simpl.
  - destruct Hsome. constructor.
  - destruct (services clm) as [|svc svcs] eqn:Hsvcs.
    + simpl. apply IH. intros Hall. apply Hsome. by constructor.
    + by rewrite (services_loop_failure ts e).
Qed.

Lemma rows_of_no_services fi p (clms : list ClaimLoop) :
  Forall (fun clm : ClaimLoop => services clm = []) clms ->
  rows_of str fi p clms = [].
Proof.
  unfold rows_of. induction 1 as [|clm clms Hclm _ IH]; simpl; [done|].
  by rewrite Hclm.
Qed.

Lemma no_services_dec (ts : TSet) : no_services ts \/ ~ no_services ts.
Proof.
  unfold no_services. induction (claims ts) as [|clm clms IH].
  - left. constructor.
  - destruct (services clm) as [|svc svcs] eqn:Hsvcs.
    + destruct IH as [IH|IH]; [left; by constructor|].
      right. intros Hall. apply IH. by inversion Hall.
    + right. intros Hall. inversion Hall. congruence.
Qed.

(** Flattening succeeds in two ways only: there is no service at all, or
    the payer lookup succeeds and the financial information is there. *)
Lemma to_dataframe_success (ts : TSet) rows :
  to_dataframe str ts = Ok rows ->
  (no_services ts /\ rows = [])
  \/ (exists p fi, payer ts = Ok p /\ financial_information ts = Some fi
                   /\ rows = rows_of str fi p (claims ts)).
Proof.
  rewrite to_dataframe_unfold. intros Hrows.
  destruct (first_failure ts) as [e|] eqn:Hfail.
  - destruct (no_services_dec ts) as [Hnone|Hsome].
    + rewrite claims_loop_no_services in Hrows by done. left. by simplify_eq.
    + rewrite (claims_loop_failure ts e) in Hrows by done. done.
  - unfold first_failure in Hfail.
    destruct (payer ts) as [p|] eqn:Hp; [|done].
    destruct (financial_information ts) as [fi|] eqn:Hfi; [|done].
    rewrite (claims_loop_ok ts p fi) in Hrows by done.
    right. exists p, fi. by simplify_eq.
Qed.

Lemma to_dataframe_rows (ts : TSet) rows :
  to_dataframe str ts = Ok rows ->
  exists p fi, rows = rows_of str fi p (claims ts).
Proof.
  intros [[Hnone ->]|(p & fi & _ & _ & ->)]%to_dataframe_success.
  - exists {| organization := {| type := EmptyString; name := VNone |} |},
           {| transaction_date := VNone |}.
    by rewrite rows_of_no_services.
  - by exists p, fi.
Qed.

Lemma add_line_item_extends (base : Row) a t g r :
  extends base (add_line_item base a t g r) a t
    (of_optional_str g) (of_optional_str r).
Proof.
  unfold extends, add_line_item, line_item_columns. cbv zeta.
  repeat split.
  - rewrite !lookup_insert_ne by done. by rewrite lookup_insert_eq.
  - rewrite !lookup_insert_ne by done. by rewrite lookup_insert_eq.
  - rewrite !lookup_insert_ne by done. by rewrite lookup_insert_eq.
  - by rewrite lookup_insert_eq.
  - intros column Hcolumn. rewrite !not_elem_of_cons in Hcolumn.
    destruct Hcolumn as (? & ? & ? & ? & _).
    by rewrite !lookup_insert_ne.
Qed.

Lemma add_line_item_keeps (base : Row) a t g r (column : string) :
  column ∉ line_item_columns ->
  add_line_item base a t g r !! column = base !! column.
Proof. intros H. by apply add_line_item_extends. Qed.

Lemma base_record_dates fi p (clm : ClaimLoop) svc :
  base_record str fi p clm svc !! "start_date"
    = Some (expected_start_date clm svc)
  /\ base_record str fi p clm svc !! "end_date"
    = Some (expected_end_date clm svc).
Proof.
  unfold base_record, serialize_service, expected_start_date,
    expected_end_date.
  cbn [mbind result_bind].
  split.
  - rewrite !lookup_insert_ne by done. rewrite lookup_insert_eq.
    by destruct (service_period_start svc),
      (claim_statement_period_start clm).
  - rewrite !lookup_insert_ne by done. rewrite lookup_insert_eq.
    by destruct (service_period_end svc), (claim_statement_period_end clm).
Qed.

Lemma base_record_transaction_date fi p (clm : ClaimLoop) svc :
  base_record str fi p clm svc !! "transaction_date"
    = Some (transaction_date fi).
Proof.
  unfold base_record, serialize_service. cbn [mbind result_bind].
  rewrite !lookup_insert_ne by done. by rewrite lookup_insert_eq.
Qed.

Lemma not_line_item_column (column : string) :
  column ∈ ["start_date"; "end_date"; "transaction_date"] ->
  column ∉ line_item_columns.
Proof.
  unfold line_item_columns. intros Hcolumn.
  rewrite !elem_of_cons in Hcolumn. rewrite !not_elem_of_cons.
  destruct Hcolumn as [->|[->|[->|[]%elem_of_nil]]];
    repeat split; try done; apply not_elem_of_nil.
Qed.

(** Every row of a service satisfies what its base record gives it. *)
Lemma line_items_Forall (P : Row -> Prop) (base : Row)
    (svc : @ServiceLoop ReferenceSegment) :
  (forall a t g r, P (add_line_item base a t g r)) ->
  Forall P (line_items base svc).
Proof.
  intros HP. unfold line_items. constructor; [apply HP|].
  apply Forall_fmap, Forall_forall. intros adj _. apply HP.
Qed.

Lemma line_items_Forall2 {A} (P : A -> Row -> Prop) (x : A) (base : Row)
    (svc : @ServiceLoop ReferenceSegment) :
  (forall a t g r, P x (add_line_item base a t g r)) ->
  Forall2 P (replicate (S (length (adjustments svc))) x) (line_items base svc).
Proof.
  intros HP. unfold line_items. simpl. constructor; [apply HP|].
  induction (adjustments svc) as [|adj adjs IH]; simpl; constructor; auto.
Qed.

Lemma rows_of_Forall2 (P : ClaimLoop * ServiceLoop -> Row -> Prop)
    (ts : TSet) fi p :
  (forall clm svc a t g r,
      P (clm, svc) (add_line_item (base_record str fi p clm svc) a t g r)) ->
  Forall2 P (row_sources ts) (rows_of str fi p (claims ts)).
Proof.
  intros HP. unfold row_sources, claim_services, rows_of.
  induction (claims ts) as [|clm clms IH]; [constructor|].
  rewrite !bind_cons, bind_app. apply Forall2_app; [|exact IH].
  clear IH. induction (services clm) as [|svc svcs IH]; [constructor|].
  rewrite !bind_cons, bind_app. apply Forall2_app; [|exact IH].
  rewrite bind_singleton.
  apply line_items_Forall2. intros. apply HP.
Qed.

(** C2.  When flattening succeeds, the row at every position comes from a
    claim and one of its services ([row_sources] lists them, a service
    once for its payment and once for each adjustment), and its
    [start_date] is the date of the service's own period start when the
    service has one, otherwise the date of the claim's statement period
    start when the claim has one, otherwise [None]; its [end_date]
    follows the same rule on the end dates, independently. *)
Theorem row_dates_inherited (ts : TSet) (rows : list Row) :
  to_dataframe str ts = Ok rows ->
  Forall2
    (fun source row =>
       row !! "start_date" =
         Some match service_period_start source.2 with
              | Some own => date own
              | None =>
                  match claim_statement_period_start source.1 with
                  | Some statement => date statement
                  | None => VNone
                  end
              end
       /\ row !! "end_date" =
         Some match service_period_end source.2 with
              | Some own => date own
              | None =>
                  match claim_statement_period_end source.1 with
                  | Some statement => date statement
                  | None => VNone
                  end
              end)
    (row_sources ts) rows.
Proof.
  intros (p & fi & ->)%to_dataframe_rows.
  apply rows_of_Forall2. intros clm svc a t g r. simpl.
  rewrite !add_line_item_keeps
    by (apply not_line_item_column; set_solver).
  destruct (base_record_dates fi p clm svc) as [-> ->].
  unfold expected_start_date, expected_end_date.
  by destruct (service_period_start svc), (service_period_end svc),
    (claim_statement_period_start clm), (claim_statement_period_end clm).
Qed.

Lemma rows_of_blocks (ts : TSet) fi p :
  rows_of str fi p (claims ts)
  = concat ((fun source : ClaimLoop * ServiceLoop =>
               line_items (base_record str fi p source.1 source.2) source.2)
            <$> claim_services ts).
Proof.
  unfold rows_of, claim_services.
  induction (claims ts) as [|clm clms IH]; [done|].
  rewrite !bind_cons, fmap_app, concat_app, <- IH. f_equal.
  clear IH. induction (services clm) as [|svc svcs IH]; [done|].
  rewrite !bind_cons, IH. simpl. done.
Qed.

Lemma claim_services_no_services (ts : TSet) :
  no_services ts -> claim_services ts = [].
Proof.
  unfold no_services, claim_services.
  induction 1 as [|clm clms Hclm _ IH]; [done|].
  rewrite bind_cons, IH, Hclm. done.
Qed.

Lemma line_items_adjustments (base : Row)
    (svc : @ServiceLoop ReferenceSegment) :
  Forall2
    (fun adjustment row =>
       extends base row (amount adjustment) "adjustment"
         (VStr (group_code adjustment)) (VStr (reason_code adjustment)))
    (adjustments svc) (tail (line_items base svc)).
Proof.
  unfold line_items. simpl. apply Forall2_fmap_r, Forall_Forall2_diag.
  apply Forall_forall. intros adj _.
  apply (add_line_item_extends base _ _ (Some _) (Some _)).
Qed.

(** C3.  When flattening succeeds, its rows are the concatenation of one
    block per service, the services taken claim after claim and, inside a
    claim, in the order of the claim.  The block of a service starts with
    one payment row, the record [serialize_service] returns for the
    service extended with [amount] the paid amount of the service, [type]
    the string payment, and [group] and [reason] at [None]; the rest of
    the block is one row per adjustment of the service, in their order,
    the same record extended with the amount of the adjustment, [type]
    the string adjustment, and the group and reason codes of the
    adjustment. *)
Theorem payment_then_adjustments (ts : TSet) (rows : list Row) :
  to_dataframe str ts = Ok rows ->
  exists blocks : list (list Row),
    rows = concat blocks
    /\ Forall2
         (fun source block =>
            exists p base payment adjustment_rows,
              payer ts = Ok p
              /\ serialize_service str (financial_information ts) p
                   source.1 source.2 = Ok base
              /\ block = payment :: adjustment_rows
              /\ extends base payment (paid_amount (service source.2))
                   "payment" VNone VNone
              /\ Forall2
                   (fun adjustment row =>
                      extends base row (amount adjustment) "adjustment"
                        (VStr (group_code adjustment))
                        (VStr (reason_code adjustment)))
                   (adjustments source.2) adjustment_rows)
         (claim_services ts) blocks.
Proof.
  intros [[Hnone ->]|(p & fi & Hp & Hfi & ->)]%to_dataframe_success.
  - exists []. split; [done|].
    rewrite claim_services_no_services by done. constructor.
  - eexists. split; [apply rows_of_blocks|].
    apply Forall2_fmap_r, Forall_Forall2_diag, Forall_forall.
    intros [clm svc] _. simpl.
    exists p, (base_record str fi p clm svc). do 2 eexists.
    split; [done|]. split; [by rewrite Hfi|].
    split; [reflexivity|]. split.
    + apply (add_line_item_extends _ _ _ None None).
    + apply line_items_adjustments.
Qed.

Lemma is_payment_payment (base : Row) a g r :
  is_payment (add_line_item base a "payment" g r) = true.
Proof.
  unfold is_payment. apply bool_decide_eq_true.
  apply add_line_item_extends.
Qed.

Lemma is_payment_adjustment (base : Row) a g r :
  is_payment (add_line_item base a "adjustment" g r) = false.
Proof.
  unfold is_payment. apply bool_decide_eq_false.
  destruct (add_line_item_extends base a "adjustment" g r) as (_ & -> & _).
  done.
Qed.

Lemma amount_of_line_item (base : Row) a t g r :
  amount_of (add_line_item base a t g r) = a.
Proof.
  unfold amount_of.
  by destruct (add_line_item_extends base a t g r) as (-> & _).
Qed.

Lemma sum_payment_rows_app (rows rows' : list Row) :
  sum_payment_rows (rows ++ rows')
  = sum_payment_rows rows + sum_payment_rows rows'.
Proof.
  unfold sum_payment_rows. rewrite List.filter_app, foldr_app.
  induction (List.filter is_payment rows) as [|row l IH]; simpl; lia.
Qed.

Lemma sum_payment_rows_line_items (base : Row)
    (svc : @ServiceLoop ReferenceSegment) :
  sum_payment_rows (line_items base svc) = paid_amount (service svc).
Proof.
  unfold line_items, sum_payment_rows. simpl.
  rewrite is_payment_payment. simpl. rewrite amount_of_line_item.
  induction (adjustments svc) as [|adj adjs IH]; simpl; [lia|].
  by rewrite is_payment_adjustment.
Qed.

(** C4.  When flattening succeeds, the sum of the [amount] column over the
    rows whose [type] is the string payment is the sum of [paid_amount]
    over all the services of all the claims of the transaction set. *)
Theorem payment_rows_sum_to_paid_amounts (ts : TSet) (rows : list Row) :
  to_dataframe str ts = Ok rows ->
  sum_payment_rows rows = sum_paid_amounts ts.
Proof.
  intros (p & fi & ->)%to_dataframe_rows.
  rewrite rows_of_blocks. unfold sum_paid_amounts.
  induction (claim_services ts) as [|[clm svc] sources IH]; [done|].
  rewrite fmap_cons, concat_cons, sum_payment_rows_app.
  rewrite sum_payment_rows_line_items, IH. reflexivity.
Qed.

(** C10.  When the claims list is empty, or no claim has a service,
    flattening returns the empty sequence of rows.  Nothing is assumed of
    the organizations or of the financial information: the outcome of the
    payer lookup, which would be taken once per service, plays no part. *)
Theorem flatten_without_services (ts : TSet) :
  claims ts = [] \/ no_services ts ->
  to_dataframe str ts = Ok [].
Proof.
  intros Hnone. rewrite to_dataframe_unfold.
  apply claims_loop_no_services.
  destruct Hnone as [->|Hnone]; [constructor|exact Hnone].
Qed.

(** C5, as the code has it.  Flattening does not read the interchange: two
    transaction sets that differ in it alone flatten alike, so an absent
    interchange changes nothing.  With the financial information absent,
    flattening succeeds exactly when no claim has a service, and then it
    returns no row.  Every row it does return has the [transaction_date]
    of a financial information that is present. *)
Theorem flatten_and_absent_headers (ts : TSet) :
  (forall ts' : TSet,
      financial_information ts' = financial_information ts ->
      claims ts' = claims ts ->
      organizations ts' = organizations ts ->
      to_dataframe str ts' = to_dataframe str ts)
  /\ (financial_information ts = None ->
      forall rows,
        to_dataframe str ts = Ok rows <-> no_services ts /\ rows = [])
  /\ (forall rows row,
        to_dataframe str ts = Ok rows -> row ∈ rows ->
        exists fi, financial_information ts = Some fi
                   /\ row !! "transaction_date" = Some (transaction_date fi)).
Proof.
  split; [|split].
  - intros ts' Hfi Hclms Horgs. rewrite !to_dataframe_unfold.
    unfold service_pass, payer. by rewrite Hfi, Hclms, Horgs.
  - intros Hfi rows. split.
    + intros [H|(p & fi & _ & Hfi' & _)]%to_dataframe_success; [done|].
      congruence.
    + intros [Hnone ->]. rewrite to_dataframe_unfold.
      by apply claims_loop_no_services.
  - intros rows row [[_ ->]|(p & fi & _ & Hfi & ->)]%to_dataframe_success Hrow.
    + by apply elem_of_nil in Hrow.
    + exists fi. split; [done|].
      unfold rows_of in Hrow.
      apply list_elem_of_bind in Hrow as (clm & Hrow & _).
      apply list_elem_of_bind in Hrow as (svc & Hrow & _).
      revert row Hrow. apply Forall_forall, line_items_Forall.
      intros a t g r.
      rewrite add_line_item_keeps by (apply not_line_item_column; set_solver).
      apply base_record_transaction_date.
Qed.

End FlattenProperties.

(** ** Segment tokenizer *)

Section TokenizerProperties.

Lemma split_join (sep : ascii) (s : string) :
  join (String sep EmptyString) (split sep s) = s.
Proof.
  induction s as [|c rest IH]; [done|]. simpl.
  case_bool_decide as Hc.
  - subst c. destruct (split sep rest) as [|piece pieces] eqn:Hsplit.
    + by destruct rest; simpl in Hsplit; repeat case_match.
    + simpl. simpl in IH. by rewrite IH.
  - destruct (split sep rest) as [|piece pieces] eqn:Hsplit.
    + by destruct rest; simpl in Hsplit; repeat case_match.
    + destruct pieces as [|piece' pieces]; simpl in *; by rewrite <- IH.
Qed.

Lemma split_length (sep : ascii) (s : string) :
  length (split sep s) = S (occurrences sep s).
Proof.
  induction s as [|c rest IH]; [done|]. simpl.
  case_bool_decide as Hc; simpl; [by rewrite IH|].
  destruct (split sep rest); simpl in *; lia.
Qed.

Lemma split_no_separator (sep : ascii) (s : string) :
  Forall (fun piece => occurrences sep piece = 0%nat) (split sep s).
Proof.
  induction s as [|c rest IH]; simpl; [by repeat constructor|].
  case_bool_decide as Hc; [by constructor|].
  destruct (split sep rest) as [|piece pieces]; inversion IH; subst;
    repeat constructor; simpl; try done; by rewrite bool_decide_eq_false_2.
Qed.

Lemma lstrip_spec (s : string) :
  (exists left, s = left +:+ lstrip s /\ blank left = true)
  /\ (forall c, first_char (lstrip s) = Some c -> isspace c = false).
Proof.
  induction s as [|c rest [(left & Hleft & Hblank) Hfirst]]; simpl.
  - split; [by exists EmptyString|done].
  - destruct (isspace c) eqn:Hc.
    + split; [|done]. exists (String c left). split.
      * change (String c rest = String c (left +:+ lstrip rest)).
        by f_equal.
      * simpl. by rewrite Hc.
    + split; [by exists EmptyString|]. simpl. by intros ? [= <-].
Qed.

Lemma rstrip_spec (s : string) :
  (exists right, s = rstrip s +:+ right /\ blank right = true)
  /\ (forall c, last_char (rstrip s) = Some c -> isspace c = false).
Proof.
  induction s as [|c rest [(right & Hright & Hblank) Hlast]]; simpl.
  - split; [by exists EmptyString|done].
  - destruct (rstrip rest) as [|k kept] eqn:Hkept.
    + simpl in Hright. subst rest. destruct (isspace c) eqn:Hc.
      * split; [|done]. exists (String c right). split; [done|].
        simpl. by rewrite Hc.
      * split; [by exists right|]. simpl. by intros ? [= <-].
    + split.
      * exists right. split; [|done].
        change (String c rest = String c (String k kept +:+ right)).
        by f_equal.
      * intros c' Hc'. apply Hlast. exact Hc'.
Qed.

Lemma rstrip_first (s : string) c :
  first_char (rstrip s) = Some c -> first_char s = Some c.
Proof.
  destruct s as [|c' rest]; simpl; [done|].
  destruct (rstrip rest); [destruct (isspace c')|]; simpl; congruence.
Qed.

Lemma strip_trimmed (s : string) : trimmed s (strip s).
Proof.
  unfold trimmed, strip.
  destruct (lstrip_spec s) as [(left & Hleft & Hblank) Hfirst].
  destruct (rstrip_spec (lstrip s)) as [(right & Hright & Hblank') Hlast].
  split; [|split].
  - exists left, right. by rewrite <- Hright, <- Hleft.
  - intros c Hc. by apply Hfirst, rstrip_first.
  - exact Hlast.
Qed.

(** C7, as the code has it.  The tokens are the pieces of the text between
    the record delimiters, in order, each with the white space at its two
    ends removed: joining the pieces with the delimiter gives the text
    back, no piece holds a delimiter, and the token at each position is the
    piece at that position, trimmed.  No piece is discarded: there is one
    token more than there are delimiters in the text, so a piece that is
    empty after trimming stays in the sequence as an empty token. *)
Theorem tokenize_keeps_every_piece (file : string) :
  (exists pieces,
      join "~" pieces = file
      /\ Forall (fun piece => occurrences "~" piece = 0%nat) pieces
      /\ Forall2 trimmed pieces (tokenize file))
  /\ length (tokenize file) = S (occurrences "~" file).
Proof.
  unfold tokenize. split.
  - exists (split "~" file). split; [apply split_join|].
    split; [apply split_no_separator|].
    apply Forall2_fmap_r, Forall_Forall2_diag, Forall_forall.
    intros piece _. apply strip_trimmed.
  - by rewrite length_fmap, split_length.
Qed.

(** C7 as stated fails: the text of two segments, each closed by the
    delimiter, gives three tokens, the last one empty; discarding the empty
    pieces would give two. *)
Lemma tokenize_keeps_empty_token :
  tokenize "ST*835~SE*2~" = ["ST*835"; "SE*2"; EmptyString]
  /\ EmptyString ∈ tokenize "ST*835~SE*2~"
  /\ tokenize "ST*835~SE*2~" <> tokenize_discarding "ST*835~SE*2~".
Proof.
  split; [reflexivity|]. split; [|discriminate].
  change (tokenize "ST*835~SE*2~") with ["ST*835"; "SE*2"; EmptyString].
  set_solver.
Qed.

End TokenizerProperties.

(** ** Transaction set builder *)

Section BuilderProperties.

Context {InterchangeSegment ReferenceSegment : Type}.
Context {collaborators : Collaborators InterchangeSegment ReferenceSegment}.

Abbreviation State := (@build_state InterchangeSegment ReferenceSegment).

Lemma pull_pending_tokens (st : State) :
  pull (st_segment st) (st_segments st)
  = match pending_tokens st with
    | [] => None
    | token :: cursor => Some (token, cursor)
    end.
Proof.
  unfold pull, pending_tokens.
  destruct (st_segment st); [done|]. by destruct (st_segments st).
Qed.

Lemma pull_remaining (st : State) token cursor :
  pull (st_segment st) (st_segments st) = Some (token, cursor) ->
  (2 * length cursor < remaining st)%nat.
Proof.
  unfold pull, remaining.
  destruct (st_segment st); [intros [= _ <-]; lia|].
  destruct (st_segments st); [done|]. intros [= _ <-]. simpl. lia.
Qed.

Lemma remaining_pending_tokens (st : State) :
  (remaining st <= 2 * length (pending_tokens st))%nat.
Proof.
  unfold remaining, pending_tokens. rewrite length_app.
  destruct (st_segment st); simpl; lia.
Qed.

(** C6.  Let [token] be the segment a pass dispatches, the pending one or
    the one pulled from the cursor, and let its identifier be none of the
    four the dispatcher knows.  Then [build_attribute] answers with no key,
    no value and no segment, and the pass goes on (it neither breaks nor
    fails) with the interchange, the financial information, the claims and
    the organizations as they were, nothing pending, and the cursor as the
    pull left it; the next pass pulls the head of that cursor. *)
Theorem unrecognized_segment_dropped (st : State) (token : string)
    (cursor : list string) :
  pull (st_segment st) (st_segments st) = Some (token, cursor) ->
  find_identifier token ∉ recognized ->
  build_attribute (st_segment st) (st_segments st)
    = {| key := None; value := None; segment := None;
         segments := Some cursor |}
  /\ build_iteration st
      = Continue {| st_interchange := st_interchange st;
                    st_financial_information := st_financial_information st;
                    st_claims := st_claims st;
                    st_organizations := st_organizations st;
                    st_segment := None;
                    st_segments := cursor |}
  /\ (forall next rest,
        cursor = next :: rest -> pull None cursor = Some (next, rest)).
Proof.
  intros Hpull Hid. unfold recognized in Hid.
  rewrite !not_elem_of_cons in Hid. destruct Hid as (Hi & Hf & Ho & Hc & _).
  assert (build_attribute (st_segment st) (st_segments st)
          = {| key := None; value := None; segment := None;
               segments := Some cursor |}) as Hresponse.
  { unfold build_attribute. rewrite Hpull.
    by rewrite !bool_decide_eq_false_2. }
  split; [exact Hresponse|]. split.
  - unfold build_iteration. rewrite Hresponse. reflexivity.
  - by intros next rest ->.
Qed.

Lemma build_iteration_end (st : State) :
  pull (st_segment st) (st_segments st) = None ->
  build_iteration st
  = Break {| st_interchange := st_interchange st;
             st_financial_information := st_financial_information st;
             st_claims := st_claims st;
             st_organizations := st_organizations st;
             st_segment := None;
             st_segments := [] |}.
Proof.
  intros Hpull. unfold build_iteration, build_attribute. by rewrite Hpull.
Qed.

Section Conforming.

(** The loop factories do what section 4.4 asks of them. *)
Context (owns : string -> Prop).
Context (organization_conforms : conforms owns OrganizationLoop_build).
Context (claim_conforms : conforms owns ClaimLoop_build).

(** A pass that has a segment to dispatch goes on.  The tokens after that
    segment are those a loop took as members, then the tokens still to be
    dispatched; only an interchange segment changes the interchange, only
    a financial information segment the financial information. *)
Lemma build_iteration_step (st : State) token cursor :
  pull (st_segment st) (st_segments st) = Some (token, cursor) ->
  exists st' members,
    build_iteration st = Continue st'
    /\ cursor = members ++ pending_tokens st'
    /\ Forall owns members
    /\ st_interchange st'
       = (if is_interchange token then Some (InterchangeSegment_new token)
          else st_interchange st)
    /\ st_financial_information st'
       = (if is_interchange token then st_financial_information st
          else if is_financial_information token
               then Some (FinancialInformationSegment_new token)
               else st_financial_information st).
Proof.
  intros Hpull.
  unfold build_iteration, build_attribute, is_interchange,
    is_financial_information.
  rewrite Hpull.
  destruct (bool_decide
              (find_identifier token = InterchangeSegment_identification))
    eqn:Hi; simpl.
  { eexists _, []. by repeat split. }
  destruct (bool_decide
              (find_identifier token
               = FinancialInformationSegment_identification))
    eqn:Hf; simpl.
  { eexists _, []. by repeat split. }
  destruct (bool_decide
              (find_identifier token = OrganizationLoop_initiating_identifier))
    eqn:Ho.
  { destruct (organization_conforms token cursor)
      as (loop & members & leftover & rest & -> & -> & Hmembers).
    simpl. eexists _, members. by repeat split. }
  destruct (bool_decide
              (find_identifier token = ClaimLoop_initiating_identifier))
    eqn:Hc.
  { destruct (claim_conforms token cursor)
      as (loop & members & leftover & rest & -> & -> & Hmembers).
    simpl. eexists _, members. by repeat split. }
  simpl. eexists _, []. by repeat split.
Qed.

Lemma build_iteration_decreases (st st' : State) :
  build_iteration st = Continue st' -> (remaining st' < remaining st)%nat.
Proof.
  intros Hpass.
  destruct (pull (st_segment st) (st_segments st)) as [[token cursor]|]
    eqn:Hpull.
  - destruct (build_iteration_step st token cursor Hpull)
      as (st1 & members & Hpass' & Hcursor & _).
    rewrite Hpass in Hpass'. injection Hpass' as <-.
    pose proof (pull_remaining st token cursor Hpull) as Hlt.
    pose proof (remaining_pending_tokens st') as Hle.
    rewrite Hcursor, length_app in Hlt. lia.
  - by rewrite build_iteration_end in Hpass.
Qed.

Lemma build_loop_terminates (fuel : nat) (st : State) :
  (remaining st < fuel)%nat ->
  exists st', build_loop fuel st = Some st'
              /\ st_segment st' = None /\ st_segments st' = [].
Proof.
  revert st. induction fuel as [|fuel IH]; intros st Hfuel; [lia|]. simpl.
  destruct (build_iteration st) as [st1|st1] eqn:Hpass.
  - apply IH. apply build_iteration_decreases in Hpass. lia.
  - exists st1. split; [done|].
    destruct (pull (st_segment st) (st_segments st)) as [[token cursor]|]
      eqn:Hpull.
    + destruct (build_iteration_step st token cursor Hpull)
        as (? & ? & Hpass' & _). congruence.
    + rewrite build_iteration_end in Hpass by done. by injection Hpass as <-.
Qed.

(** C8, as the code has it.  With loop factories that do what section 4.4
    asks, the loop of [build] ends from every state, so on every finite
    sequence of tokens, within the number of passes [remaining] counts,
    and it ends with nothing pending and the cursor empty.  A pass breaks
    out of the loop exactly when nothing is pending and the cursor is
    empty.  Every other pass takes at least one token, which is the
    pending segment or comes from the cursor: [remaining], two for each
    token on the cursor and one for a pending segment, gets smaller. *)
Theorem build_loop_ends :
  (forall st : State,
      exists st', build_loop (S (remaining st)) st = Some st'
                  /\ st_segment st' = None /\ st_segments st' = [])
  /\ (forall st : State,
        (exists st', build_iteration st = Break st')
        <-> st_segment st = None /\ st_segments st = [])
  /\ (forall st st' : State,
        build_iteration st = Continue st' ->
        (remaining st' < remaining st)%nat).
Proof.
  split; [|split].
  - intros st. apply build_loop_terminates. lia.
  - intros st. split.
    + intros [st' Hpass].
      destruct (pull (st_segment st) (st_segments st)) as [[token cursor]|]
        eqn:Hpull.
      * destruct (build_iteration_step st token cursor Hpull)
          as (? & ? & Hpass' & _). congruence.
      * unfold pull in Hpull. destruct (st_segment st); [done|].
        by destruct (st_segments st).
    + intros [Hsegment Hsegments]. eexists. apply build_iteration_end.
      by rewrite Hsegment, Hsegments.
  - apply build_iteration_decreases.
Qed.

(** The loops own no header segment, and the two header segments have
    different identifications. *)
Context (headers_not_owned :
  forall member, owns member ->
    is_interchange member = false /\ is_financial_information member = false).
Context (identifications_differ :
  InterchangeSegment_identification
  <> FinancialInformationSegment_identification).

Lemma filter_members (f : string -> bool) (members : list string) :
  (forall member, owns member -> f member = false) ->
  Forall owns members -> List.filter f members = [].
Proof.
  intros Hf. induction 1 as [|member members Hmember _ IH]; simpl; [done|].
  by rewrite (Hf member Hmember).
Qed.

Lemma last_filter_step {A} (f : string -> bool) (new : string -> A)
    (token : string) (members tokens : list string) :
  (forall member, owns member -> f member = false) ->
  Forall owns members ->
  new <$> last (List.filter f (token :: members ++ tokens))
  = match new <$> last (List.filter f tokens) with
    | Some header => Some header
    | None => if f token then Some (new token) else None
    end.
Proof.
  intros Hf Hmembers. simpl.
  rewrite List.filter_app, (filter_members f members Hf Hmembers). simpl.
  destruct (f token); [|by destruct (last (List.filter f tokens))].
  rewrite last_cons. by destruct (last (List.filter f tokens)).
Qed.

(** What the loop leaves in the two header variables. *)
Lemma build_loop_headers (fuel : nat) (st st' : State) :
  build_loop fuel st = Some st' ->
  st_interchange st'
  = match last_interchange (pending_tokens st) with
    | Some i => Some i
    | None => st_interchange st
    end
  /\ st_financial_information st'
    = match last_financial_information (pending_tokens st) with
      | Some f => Some f
      | None => st_financial_information st
      end.
Proof.
  revert st. induction fuel as [|fuel IH]; intros st; [done|]. simpl.
  pose proof (pull_pending_tokens st) as Hpull.
  destruct (pending_tokens st) as [|token cursor] eqn:Hpending.
  - rewrite build_iteration_end by done. intros [= <-]. by split.
  - destruct (build_iteration_step st token cursor Hpull)
      as (st1 & members & -> & -> & Hmembers & Hi & Hf).
    intros [Hi' Hf']%IH. rewrite Hi', Hf', Hi, Hf.
    unfold last_interchange, last_financial_information.
    rewrite !(last_filter_step _ _ token members)
      by (done || intros ? ?; by apply headers_not_owned).
    split.
    + by destruct (InterchangeSegment_new <$> _), (is_interchange token).
    + destruct (FinancialInformationSegment_new <$> _); [done|].
      destruct (is_interchange token) eqn:Ei,
        (is_financial_information token) eqn:Ef; try done.
      apply bool_decide_eq_true in Ei, Ef. congruence.
Qed.

(** C9.  With loop factories that do what section 4.4 asks and own no
    header segment, [build] succeeds on every text, and the interchange of
    the transaction set is made from the last token, in document order,
    whose identifier is the interchange identification (it is [None] when
    there is no such token); likewise the financial information, from the
    last token with the financial information identification.  With
    several such tokens the earlier ones leave no trace. *)
Theorem last_header_segment_wins (file : string) :
  exists ts,
    build file = Some ts
    /\ interchange ts = last_interchange (tokenize file)
    /\ financial_information ts = last_financial_information (tokenize file).
Proof.
  unfold build.
  destruct (build_loop_terminates
              (S (remaining (initial_state (tokenize file) : State)))
              (initial_state (tokenize file))) as (st' & Hrun & _); [lia|].
  rewrite Hrun. exists (transaction_set_of st'). split; [done|].
  apply build_loop_headers in Hrun as [Hi Hf]. simpl.
  rewrite Hi, Hf. unfold pending_tokens. simpl.
  by destruct (last_interchange _), (last_financial_information _).
Qed.

End Conforming.

End BuilderProperties.

(** ** The properties on the sample catalogue and transaction sets *)

Lemma trailing_scan_conforms (owned : list string) (cursor : list string) :
  exists members leftover rest,
    trailing_scan owned cursor = (members, Some rest, leftover)
    /\ cursor = members ++ option_list leftover ++ rest
    /\ Forall (fun member => leading_identifier member ∈ owned) members.
Proof.
  induction cursor as [|token cursor IH]; simpl.
  - by exists [], None, [].
  - case_bool_decide as Htoken.
    + destruct IH as (members & leftover & rest & -> & Hcursor & Hmembers).
      exists (token :: members), leftover, rest.
      split; [done|]. split; [by rewrite Hcursor|]. by constructor.
    + by exists [], (Some token), cursor.
Qed.

Lemma sample_Organization_conforms :
  conforms sample_owns sample_OrganizationLoop_build.
Proof.
  intros start cursor. unfold sample_OrganizationLoop_build.
  destruct (trailing_scan_conforms ["N3"; "N4"; "REF"; "PER"] cursor)
    as (members & leftover & rest & -> & Hcursor & Hmembers).
  eexists _, members, leftover, rest. split; [done|]. split; [done|].
  eapply Forall_impl; [exact Hmembers|].
  intros member. unfold sample_owns. rewrite !elem_of_cons. tauto.
Qed.

Lemma sample_Claim_conforms : conforms sample_owns sample_ClaimLoop_build.
Proof.
  intros start cursor. unfold sample_ClaimLoop_build.
  destruct (trailing_scan_conforms ["NM1"; "DTM"; "MIA"] cursor)
    as (members & leftover & rest & -> & Hcursor & Hmembers).
  eexists _, members, leftover, rest. split; [done|]. split; [done|].
  eapply Forall_impl; [exact Hmembers|].
  intros member. unfold sample_owns. rewrite !elem_of_cons. tauto.
Qed.

Lemma sample_headers_not_owned (member : string) :
  sample_owns member ->
  is_interchange (collaborators := sample_collaborators) member = false
  /\ is_financial_information (collaborators := sample_collaborators) member
     = false.
Proof.
  unfold sample_owns, is_interchange, is_financial_information. simpl.
  rewrite !elem_of_cons.
  intros [->|[->|[->|[->|[->|[->|[->|[]%elem_of_nil]]]]]]]; by split.
Qed.

(** The payer lookup on the sample sets: one payer is found, two raise.
    A document without a payer is built all the same, and it is the
    lookup on the transaction set built that raises. *)
Lemma payer_exactly_one_witness :
  payer sample_set = Ok sample_payer
  /\ payer sample_set_empty = Raise AssertionError
  /\ exists ts,
       build (collaborators := sample_collaborators) sample_document_payee
       = Some ts
       /\ payer ts = Raise AssertionError.
Proof.
  split; [|split].
  - apply (proj1 (payer_exactly_one sample_set)). reflexivity.
  - apply (proj1 (proj2 (payer_exactly_one sample_set_empty))).
    vm_compute. lia.
  - eexists. split; [vm_compute; reflexivity|].
    apply (proj1 (proj2 (payer_exactly_one _))). vm_compute. lia.
Defined.

(** The service of the sample has an end date of its own and takes its
    start date from the claim. *)
Lemma row_dates_inherited_witness :
  exists rows,
    to_dataframe id sample_set = Ok rows
    /\ Forall2
         (fun source row =>
            row !! "start_date" =
              Some match service_period_start source.2 with
                   | Some own => date own
                   | None =>
                       match claim_statement_period_start source.1 with
                       | Some statement => date statement
                       | None => VNone
                       end
                   end
            /\ row !! "end_date" =
              Some match service_period_end source.2 with
                   | Some own => date own
                   | None =>
                       match claim_statement_period_end source.1 with
                       | Some statement => date statement
                       | None => VNone
                       end
                   end)
         (row_sources sample_set) rows
    /\ (fun row : gmap string cell => (row !! "start_date", row !! "end_date"))
         <$> rows
       = [(Some (VStr "20190101"), Some (VStr "20190102"));
          (Some (VStr "20190101"), Some (VStr "20190102"))].
Proof.
  eexists. split; [reflexivity|]. split.
  - apply (row_dates_inherited id sample_set). reflexivity.
  - vm_compute. reflexivity.
Defined.

Lemma payment_then_adjustments_witness :
  exists rows blocks,
    to_dataframe id sample_set = Ok rows
    /\ rows = concat blocks
    /\ Forall2
         (fun source block =>
            exists p base payment adjustment_rows,
              payer sample_set = Ok p
              /\ serialize_service id (financial_information sample_set) p
                   source.1 source.2 = Ok base
              /\ block = payment :: adjustment_rows
              /\ extends base payment (paid_amount (service source.2))
                   "payment" VNone VNone
              /\ Forall2
                   (fun adjustment row =>
                      extends base row (amount adjustment) "adjustment"
                        (VStr (group_code adjustment))
                        (VStr (reason_code adjustment)))
                   (adjustments source.2) adjustment_rows)
         (claim_services sample_set) blocks.
Proof.
  eexists.
  destruct (payment_then_adjustments id sample_set _ eq_refl)
    as (blocks & Hrows & Hblocks).
  exists blocks. split; [reflexivity|]. split; [exact Hrows|exact Hblocks].
Defined.

Lemma payment_rows_sum_to_paid_amounts_witness :
  exists rows,
    to_dataframe id sample_set = Ok rows
    /\ sum_payment_rows rows = 50.
Proof.
  eexists. split; [reflexivity|].
  rewrite (payment_rows_sum_to_paid_amounts id sample_set) by reflexivity.
  reflexivity.
Defined.

Lemma flatten_without_services_witness :
  payer sample_set_empty = Raise AssertionError
  /\ to_dataframe id sample_set_empty = Ok [].
Proof.
  split; [reflexivity|].
  apply (flatten_without_services id sample_set_empty).
  right. repeat constructor.
Defined.

(** C5 as stated fails: the sample set has a payer, a claim with a service
    and no financial information, and flattening it raises. *)
Lemma flatten_raises_without_financial_information :
  financial_information sample_set_headless = None
  /\ payer sample_set_headless = Ok sample_payer
  /\ to_dataframe id sample_set_headless = Raise AttributeError
  /\ ~ exists rows, to_dataframe id sample_set_headless = Ok rows.
Proof.
  split; [reflexivity|]. split; [reflexivity|]. split; [reflexivity|].
  intros [rows Hrows]. discriminate Hrows.
Defined.

Lemma flatten_and_absent_headers_witness :
  to_dataframe id sample_set_headless
    = to_dataframe id
        {| interchange := Some "ISA*00";
           financial_information := None;
           claims := [sample_claim];
           organizations := [sample_payer] |}
  /\ (forall rows,
        to_dataframe id sample_set_empty = Ok rows
        <-> no_services sample_set_empty /\ rows = []).
Proof.
  split.
  - apply (proj1 (flatten_and_absent_headers id _)); reflexivity.
  - apply (proj1 (proj2 (flatten_and_absent_headers id sample_set_empty))).
    reflexivity.
Defined.

(** A trailer segment at the head of the cursor is dropped. *)
Lemma unrecognized_segment_dropped_witness :
  build_iteration (collaborators := sample_collaborators)
    (initial_state ["SE*2"; "ISA*00"])
  = Continue (initial_state ["ISA*00"]).
Proof.
  apply (unrecognized_segment_dropped (collaborators := sample_collaborators)
           (initial_state ["SE*2"; "ISA*00"]) "SE*2" ["ISA*00"]).
  - reflexivity.
  - apply (bool_decide_unpack _). vm_compute. exact I.
Defined.

(** C8 as stated fails on its middle clause.  In this document the
    organization loop hands the trailer back as its leftover; the pass
    that follows drops that pending segment, goes on, and leaves the
    cursor as it found it. *)
Lemma pending_pass_takes_nothing_from_cursor :
  exists st1 st2 : @build_state string string,
    build_iteration (collaborators := sample_collaborators)
      (initial_state (tokenize "N1*PR*INSURER~SE*2~ISA*00")) = Continue st1
    /\ st_segment st1 = Some "SE*2"
    /\ st_segments st1 = ["ISA*00"]
    /\ build_iteration (collaborators := sample_collaborators) st1
       = Continue st2
    /\ st_segments st2 = st_segments st1.
Proof.
  eexists _, _. split; [reflexivity|]. split; [reflexivity|].
  split; [reflexivity|]. split; [reflexivity|]. reflexivity.
Defined.

Lemma build_loop_ends_witness :
  exists st' : @build_state string string,
    build_loop (collaborators := sample_collaborators) 7
      (initial_state (tokenize "N1*PR*INSURER~SE*2~ISA*00")) = Some st'
    /\ st_segment st' = None /\ st_segments st' = [].
Proof.
  exact (proj1 (build_loop_ends (collaborators := sample_collaborators)
                  sample_owns sample_Organization_conforms
                  sample_Claim_conforms)
           (initial_state (tokenize "N1*PR*INSURER~SE*2~ISA*00"))).
Defined.

Lemma last_header_segment_wins_witness :
  exists ts,
    build (collaborators := sample_collaborators) sample_document = Some ts
    /\ interchange ts = Some "ISA*02"
    /\ financial_information ts
       = Some {| transaction_date := VStr "20190315" |}
    /\ length (organizations ts) = 1%nat.
Proof.
  destruct (last_header_segment_wins (collaborators := sample_collaborators)
              sample_owns sample_Organization_conforms sample_Claim_conforms
              sample_headers_not_owned ltac:(discriminate) sample_document)
    as (ts & Hbuild & Hinterchange & Hfinancial).
  exists ts. split; [exact Hbuild|].
  split; [rewrite Hinterchange; reflexivity|].
  split; [rewrite Hfinancial; reflexivity|].
  vm_compute in Hbuild. injection Hbuild as <-. reflexivity.
Defined.

(** * Further properties *)

(** ** Flattening *)

Section MoreFlattenProperties.

Context {InterchangeSegment ReferenceSegment : Type}.
Context (str : ReferenceSegment -> string).

Abbreviation TSet' := (@TransactionSet InterchangeSegment ReferenceSegment).
Abbreviation Row' := (gmap string cell).
Abbreviation Source :=
  (@ClaimLoop ReferenceSegment * @ServiceLoop ReferenceSegment)%type.

Lemma payer_raises_assertion (ts : TSet') e :
  payer ts = Raise e -> e = AssertionError.
Proof.
  rewrite payer_unfold.
  destruct (List.filter is_payer (organizations ts)) as [|o [|o' l]];
    congruence.
Qed.

Lemma payer_ok_length (ts : TSet') :
  (exists p, payer ts = Ok p)
  <-> length (List.filter is_payer (organizations ts)) = 1%nat.
Proof.
  rewrite payer_unfold.
  destruct (List.filter is_payer (organizations ts)) as [|o [|o' l]];
    split; try done; try (intros [? ?]; done). by exists o.
Qed.

Lemma to_dataframe_with_services (ts : TSet') :
  ~ no_services ts ->
  to_dataframe str ts
  = match payer ts, financial_information ts with
    | Raise e, _ => Raise e
    | Ok _, None => Raise AttributeError
    | Ok p, Some fi => Ok (rows_of str fi p (claims ts))
    end.
Proof.
  intros Hsome. rewrite to_dataframe_unfold.
  destruct (first_failure ts) as [e|] eqn:Hfail.
  - rewrite (claims_loop_failure str ts e) by done.
    unfold first_failure in Hfail.
    destruct (payer ts); [|congruence].
    destruct (financial_information ts); congruence.
  - unfold first_failure in Hfail.
    destruct (payer ts) as [p|] eqn:Hp; [|done].
    destruct (financial_information ts) as [fi|] eqn:Hfi; [|done].
    by rewrite (claims_loop_ok str ts p fi).
Qed.

(** X1.  When some claim has a service, flattening has three outcomes,
    told apart by the organizations and the financial information alone.
    It raises the assertion error of the payer lookup exactly when the
    organizations of type payer are not one; the lookup comes first, so
    this is also what it raises when the financial information is absent
    as well.  It raises the attribute error exactly when there is one
    payer and no financial information.  It returns rows exactly when
    there is one payer and the financial information is there. *)
Theorem flatten_outcomes (ts : TSet') :
  ~ no_services ts ->
  (to_dataframe str ts = Raise AssertionError
   <-> length (List.filter is_payer (organizations ts)) <> 1%nat)
  /\ (to_dataframe str ts = Raise AttributeError
      <-> length (List.filter is_payer (organizations ts)) = 1%nat
          /\ financial_information ts = None)
  /\ ((exists rows, to_dataframe str ts = Ok rows)
      <-> length (List.filter is_payer (organizations ts)) = 1%nat
          /\ is_Some (financial_information ts)).
Proof.
  intros Hsome. rewrite (to_dataframe_with_services ts Hsome).
  rewrite <- payer_ok_length.
  destruct (payer ts) as [p|e] eqn:Hp.
  - destruct (financial_information ts) as [fi|] eqn:Hfi.
    + split; [|split].
      * split; [done|]. intros H. destruct H. by exists p.
      * split; [done|]. by intros [_ ?].
      * split; [by eauto|]. by eauto.
    + split; [|split].
      * split; [done|]. intros H. destruct H. by exists p.
      * split; [by eauto|done].
      * split; [by intros [? ?]|]. by intros [_ [? ?]].
  - apply payer_raises_assertion in Hp as ->.
    split; [|split].
    + split; [|done]. by intros _ [? ?].
    + split; [done|]. by intros [[? ?] _].
    + split; [by intros [? ?]|]. by intros [[? ?] _].
Qed.

Lemma blocks_length (f : Source -> Row') (sources : list Source) :
  length
    (concat ((fun source => line_items (f source) source.2) <$> sources))
  = (length sources
     + sum_list ((fun cs => length (adjustments cs.2)) <$> sources))%nat.
Proof.
  induction sources as [|source sources IH]; [done|].
  rewrite !fmap_cons, concat_cons, length_app, IH. unfold line_items.
  simpl. rewrite length_fmap. lia.
Qed.

Lemma blocks_payments (f : Source -> Row') (sources : list Source) :
  length
    (List.filter is_payment
       (concat ((fun source => line_items (f source) source.2) <$> sources)))
  = length sources.
Proof.
  induction sources as [|source sources IH]; [done|].
  rewrite fmap_cons, concat_cons, List.filter_app, length_app, IH.
  unfold line_items. simpl. rewrite is_payment_payment. simpl.
  f_equal. induction (adjustments source.2) as [|adj adjs IHadjs]; [done|].
  simpl. by rewrite is_payment_adjustment.
Qed.

(** X2.  When flattening succeeds, there are as many rows as there are
    services and adjustments together, and as many rows of type payment
    as there are services. *)
Theorem row_counts (ts : TSet') (rows : list Row') :
  to_dataframe str ts = Ok rows ->
  length rows = (length (claim_services ts) + adjustment_count ts)%nat
  /\ length (List.filter is_payment rows) = length (claim_services ts).
Proof.
  intros (p & fi & ->)%to_dataframe_rows.
  rewrite rows_of_blocks. unfold adjustment_count.
  split; [apply blocks_length|apply blocks_payments].
Qed.

Lemma rows_of_Forall (P : Row' -> Prop) fi p
    (clms : list (@ClaimLoop ReferenceSegment)) :
  (forall clm svc a t g r,
      P (add_line_item (base_record str fi p clm svc) a t g r)) ->
  Forall P (rows_of str fi p clms).
Proof.
  intros HP. apply Forall_forall. intros row Hrow. unfold rows_of in Hrow.
  apply list_elem_of_bind in Hrow as (clm & Hrow & _).
  apply list_elem_of_bind in Hrow as (svc & Hrow & _).
  revert row Hrow. apply Forall_forall, line_items_Forall.
  intros. apply HP.
Qed.

Lemma base_record_columns fi p (clm : @ClaimLoop ReferenceSegment) svc :
  dom (base_record str fi p clm svc)
  =@{gset string}
    list_to_set
      ["claim_index"; "patient"; "code"; "units"; "transaction_date";
       "charge_amount"; "payer"; "start_date"; "end_date"; "remark";
       "reference"; "rendering_provider"].
Proof.
  unfold base_record, serialize_service. cbn [mbind result_bind].
  rewrite !dom_insert_L, dom_empty_L. set_solver.
Qed.

Lemma add_line_item_columns (base : Row') a t g r :
  dom (add_line_item base a t g r)
  =@{gset string} list_to_set line_item_columns ∪ dom base.
Proof.
  unfold add_line_item, line_item_columns. cbv zeta.
  rewrite !dom_insert_L. set_unfold. tauto.
Qed.

(** X3.  Every row flattening returns has the same sixteen columns, the
    twelve [serialize_service] writes and the four [add_line_item] adds,
    none missing and none besides; where a value is absent the column is
    there and holds [None]. *)
Theorem rows_have_all_columns (ts : TSet') (rows : list Row') :
  to_dataframe str ts = Ok rows ->
  Forall (fun row => dom row = row_columns) rows.
Proof.
  intros (p & fi & ->)%to_dataframe_rows.
  apply rows_of_Forall. intros clm svc a t g r.
  rewrite add_line_item_columns, base_record_columns.
  unfold row_columns, line_item_columns. set_solver.
Qed.

Lemma base_record_payer fi p (clm : @ClaimLoop ReferenceSegment) svc :
  base_record str fi p clm svc !! "payer" = Some (name (organization p)).
Proof.
  unfold base_record, serialize_service. cbn [mbind result_bind].
  rewrite !lookup_insert_ne by done. by rewrite lookup_insert_eq.
Qed.

(** X4.  When flattening returns rows, one organization is of type payer,
    and the [payer] column of every row, payment or adjustment, of
    whatever claim, holds the name of that organization. *)
Theorem payer_column_is_the_payer (ts : TSet') (rows : list Row') :
  to_dataframe str ts = Ok rows -> rows <> [] ->
  exists o,
    List.filter is_payer (organizations ts) = [o]
    /\ Forall (fun row => row !! "payer" = Some (name (organization o))) rows.
Proof.
  intros [[_ ->]|(p & fi & Hp & _ & ->)]%to_dataframe_success Hrows; [done|].
  exists p. split.
  - rewrite payer_unfold in Hp.
    destruct (List.filter is_payer (organizations ts)) as [|o [|o' l]];
      congruence.
  - apply rows_of_Forall. intros clm svc a t g r.
    rewrite add_line_item_keeps; [apply base_record_payer|].
    unfold line_item_columns. rewrite !not_elem_of_cons.
    repeat split; try done. apply not_elem_of_nil.
Qed.

(** X5.  A second [add_line_item] replaces what the first one wrote: the
    four line item columns hold the values of the last call, also when
    the dictionary given already had such columns, and the other columns
    are those of the dictionary given. *)
Theorem add_line_item_overwrites (base : Row') a t g r a' t' g' r' :
  add_line_item (add_line_item base a t g r) a' t' g' r'
  = add_line_item base a' t' g' r'.
Proof.
  apply map_eq. intros column.
  destruct (add_line_item_extends
              (add_line_item base a t g r) a' t' g' r')
    as (Ha & Ht & Hg & Hr & Hkeep).
  destruct (add_line_item_extends base a' t' g' r')
    as (Ha' & Ht' & Hg' & Hr' & Hkeep').
  destruct (decide (column ∈ line_item_columns)) as [Hin|Hout].
  - unfold line_item_columns in Hin. rewrite !elem_of_cons in Hin.
    destruct Hin as [->|[->|[->|[->|[]%elem_of_nil]]]]; congruence.
  - rewrite Hkeep, Hkeep' by done. by apply add_line_item_keeps.
Qed.

Lemma payer_with_claims (ts : TSet') clms :
  payer (with_claims ts clms) = payer ts.
Proof. reflexivity. Qed.

Lemma filter_permutation {A} (f : A -> bool) (l l' : list A) :
  l ≡ₚ l' -> List.filter f l ≡ₚ List.filter f l'.
Proof.
  induction 1 as [|x l l' _ IH|x y l|l1 l2 l3 _ IH1 _ IH2]; simpl.
  - done.
  - destruct (f x); by rewrite IH.
  - destruct (f x), (f y); try done. apply perm_swap.
  - by rewrite IH1.
Qed.

Lemma payer_permutation (ts : TSet') orgs :
  organizations ts ≡ₚ orgs -> payer (with_organizations ts orgs) = payer ts.
Proof.
  intros Hperm%(filter_permutation is_payer). rewrite !payer_unfold. simpl.
  destruct (List.filter is_payer (organizations ts)) as [|o [|o' l]].
  - by apply Permutation_nil_l in Hperm as <-.
  - by apply Permutation_singleton_l in Hperm as <-.
  - apply Permutation_length in Hperm.
    destruct (List.filter is_payer orgs) as [|o1 [|o2 l']]; done.
Qed.

Lemma for_each_ext {A S} (l : list A) (body body' : A -> S -> result S) s :
  (forall x s, body x s = body' x s) ->
  for_each l body s = for_each l body' s.
Proof.
  intros Hbody. revert s. induction l as [|x l IH]; intros s; [done|].
  simpl. rewrite Hbody. destruct (body' x s); simpl; [apply IH|done].
Qed.

Lemma to_dataframe_by_payer (ts ts' : TSet') :
  payer ts' = payer ts ->
  financial_information ts' = financial_information ts ->
  claims ts' = claims ts ->
  to_dataframe str ts' = to_dataframe str ts.
Proof.
  intros Hp Hfi Hclms. rewrite !to_dataframe_unfold, Hclms.
  apply for_each_ext. intros clm data.
  apply for_each_ext. intros svc data'.
  unfold service_pass. by rewrite Hp, Hfi.
Qed.

(** X6.  The payer lookup and the flattening do not depend on the order
    of the organizations: with the organizations permuted the lookup
    returns the same organization or raises the same error, and
    flattening returns the same rows or raises the same error. *)
Theorem organizations_order_is_irrelevant (ts : TSet')
    (orgs : list OrganizationLoop) :
  organizations ts ≡ₚ orgs ->
  payer (with_organizations ts orgs) = payer ts
  /\ to_dataframe str (with_organizations ts orgs) = to_dataframe str ts.
Proof.
  intros Hperm. split; [by apply payer_permutation|].
  apply to_dataframe_by_payer; [by apply payer_permutation|done..].
Qed.

Lemma for_each_app {A S} (l1 l2 : list A) (body : A -> S -> result S) s :
  for_each (l1 ++ l2) body s = s' ← for_each l1 body s; for_each l2 body s'.
Proof.
  revert s. induction l1 as [|x l1 IH]; intros s; [done|]. simpl.
  destruct (body x s); simpl; [apply IH|done].
Qed.

Lemma claims_loop_shift (ts : TSet') clms data :
  for_each clms
    (fun clm data => for_each (services clm) (service_pass str ts clm) data)
    data
  = rows ← for_each clms
             (fun clm data =>
                for_each (services clm) (service_pass str ts clm) data) [];
    Ok (data ++ rows).
Proof.
  destruct (first_failure ts) as [e|] eqn:Hfail.
  - destruct (no_services_dec (with_claims ts clms)) as [Hnone|Hsome];
      unfold no_services in *; simpl in *.
    + rewrite !claims_loop_no_services by done. simpl. by rewrite app_nil_r.
    + by rewrite !(claims_loop_failure str ts e).
  - unfold first_failure in Hfail.
    destruct (payer ts) as [p|] eqn:Hp; [|done].
    destruct (financial_information ts) as [fi|] eqn:Hfi; [|done].
    by rewrite !(claims_loop_ok str ts p fi).
Qed.

(** X7.  Flattening goes claim by claim: the rows of a list of claims
    followed by another are the rows of the first list followed by the
    rows of the second, with the same organizations and financial
    information; and where flattening one of the two lists raises,
    flattening the whole raises the same error. *)
Theorem flatten_appended_claims (ts : TSet')
    (clms1 clms2 : list (@ClaimLoop ReferenceSegment)) :
  to_dataframe str (with_claims ts (clms1 ++ clms2))
  = rows1 ← to_dataframe str (with_claims ts clms1);
    rows2 ← to_dataframe str (with_claims ts clms2);
    Ok (rows1 ++ rows2).
Proof.
  rewrite !to_dataframe_unfold. simpl.
  change (service_pass str (with_claims ts (clms1 ++ clms2)))
    with (service_pass str ts).
  change (service_pass str (with_claims ts clms1))
    with (service_pass str ts).
  change (service_pass str (with_claims ts clms2))
    with (service_pass str ts).
  rewrite for_each_app.
  destruct (for_each clms1 _ []) as [rows1|e]; simpl; [|done].
  apply claims_loop_shift.
Qed.

Lemma sum_adjustment_rows_app (rows rows' : list Row') :
  sum_adjustment_rows (rows ++ rows')
  = sum_adjustment_rows rows + sum_adjustment_rows rows'.
Proof.
  unfold sum_adjustment_rows. rewrite List.filter_app, foldr_app.
  induction (List.filter is_adjustment rows) as [|row l IH]; simpl; lia.
Qed.

Lemma sum_adjustment_rows_adjustments (base : Row')
    (adjs : list ServiceAdjustment) :
  sum_adjustment_rows
    ((fun adjustment =>
        add_line_item base (amount adjustment) "adjustment"
          (Some (group_code adjustment)) (Some (reason_code adjustment)))
     <$> adjs)
  = foldr (fun adjustment acc => amount adjustment + acc) 0 adjs.
Proof.
  induction adjs as [|adj adjs IH]; [done|].
  rewrite fmap_cons.
  change (?row :: ?rows) with ([row] ++ rows).
  rewrite sum_adjustment_rows_app, IH. unfold sum_adjustment_rows.
  cbn [List.filter app].
  assert (is_adjustment
            (add_line_item base (amount adj) "adjustment"
               (Some (group_code adj)) (Some (reason_code adj))) = true)
    as ->.
  { apply bool_decide_eq_true.
    apply (add_line_item_extends base _ "adjustment" (Some _) (Some _)). }
  cbn [foldr]. rewrite amount_of_line_item. lia.
Qed.

Lemma sum_adjustment_rows_line_items (base : Row')
    (svc : @ServiceLoop ReferenceSegment) :
  sum_adjustment_rows (line_items base svc)
  = foldr (fun adjustment acc => amount adjustment + acc) 0 (adjustments svc).
Proof.
  unfold line_items.
  change (?row :: ?rows) with ([row] ++ rows).
  rewrite sum_adjustment_rows_app, sum_adjustment_rows_adjustments.
  unfold sum_adjustment_rows. cbn [List.filter app].
  assert (is_adjustment
            (add_line_item base (paid_amount (service svc)) "payment"
               None None) = false) as ->.
  { apply bool_decide_eq_false.
    destruct (add_line_item_extends base (paid_amount (service svc))
                "payment" None None) as (_ & -> & _). done. }
  reflexivity.
Qed.

(** X8.  When flattening succeeds, the sum of the [amount] column over
    the rows whose [type] is the string adjustment is the sum of the
    amounts of all the adjustments of all the services. *)
Theorem adjustment_rows_sum_to_adjustments (ts : TSet') (rows : list Row') :
  to_dataframe str ts = Ok rows ->
  sum_adjustment_rows rows = sum_adjustment_amounts ts.
Proof.
  intros (p & fi & ->)%to_dataframe_rows.
  rewrite rows_of_blocks. unfold sum_adjustment_amounts.
  induction (claim_services ts) as [|[clm svc] sources IH]; [done|].
  rewrite fmap_cons, concat_cons, sum_adjustment_rows_app.
  rewrite sum_adjustment_rows_line_items, IH. reflexivity.
Qed.

End MoreFlattenProperties.

(** ** Segment tokenizer *)

Section MoreTokenizerProperties.

Lemma occurrences_app (c : ascii) (s1 s2 : string) :
  occurrences c (s1 +:+ s2) = (occurrences c s1 + occurrences c s2)%nat.
Proof. induction s1 as [|c' s1 IH]; simpl; [done|]. rewrite IH. lia. Qed.

Lemma split_app (sep : ascii) (s1 s2 : string) :
  split sep (s1 +:+ String sep s2) = split sep s1 ++ split sep s2.
Proof.
  induction s1 as [|c s1 IH]; simpl.
  - by rewrite bool_decide_eq_true_2.
  - case_bool_decide; [by rewrite IH|]. rewrite IH.
    destruct (split sep s1) as [|piece pieces] eqn:Hsplit; [|done].
    by destruct s1; simpl in Hsplit; repeat case_match.
Qed.

Lemma split_without_separator (sep : ascii) (s : string) :
  occurrences sep s = 0%nat -> split sep s = [s].
Proof.
  induction s as [|c s IH]; simpl; [done|].
  case_bool_decide; [done|]. intros Hs. by rewrite IH.
Qed.

Lemma split_of_join_pieces (sep : ascii) (pieces : list string) :
  pieces <> [] ->
  Forall (fun piece => occurrences sep piece = 0%nat) pieces ->
  split sep (join (String sep EmptyString) pieces) = pieces.
Proof.
  intros Hne Hpieces.
  induction Hpieces as [|piece pieces Hpiece Hpieces IH]; [done|].
  destruct pieces as [|piece' pieces].
  - simpl. by apply split_without_separator.
  - change (join (String sep EmptyString) (piece :: piece' :: pieces))
      with (piece +:+ String sep (join (String sep EmptyString)
                                    (piece' :: pieces))).
    rewrite split_app, IH by done.
    by rewrite split_without_separator.
Qed.

(** X9.  Splitting and joining undo each other: the pieces of a string,
    joined with the separator, are the string; and a list of pieces that
    is not empty and whose pieces are free of the separator, joined with
    the separator and split on it, is that list again, empty pieces
    included. *)
Theorem split_and_join (sep : ascii) :
  (forall s, join (String sep EmptyString) (split sep s) = s)
  /\ (forall pieces,
        pieces <> [] ->
        Forall (fun piece => occurrences sep piece = 0%nat) pieces ->
        split sep (join (String sep EmptyString) pieces) = pieces).
Proof.
  split.
  - intros s. apply split_join.
  - intros pieces Hne Hpieces.
    induction Hpieces as [|piece pieces Hpiece Hpieces IH]; [done|].
    destruct pieces as [|piece' pieces].
    + simpl. by apply split_without_separator.
    + change (join (String sep EmptyString) (piece :: piece' :: pieces))
        with (piece +:+ String sep (join (String sep EmptyString)
                                      (piece' :: pieces))).
      rewrite split_app, IH by done.
      by rewrite split_without_separator.
Qed.

Lemma lstrip_fixed (s : string) :
  (forall c, first_char s = Some c -> isspace c = false) -> lstrip s = s.
Proof.
  destruct s as [|c s]; simpl; [done|]. intros Hc. by rewrite (Hc c).
Qed.

Lemma rstrip_fixed (s : string) :
  (forall c, last_char s = Some c -> isspace c = false) -> rstrip s = s.
Proof.
  induction s as [|c s IH]; [done|]. intros Hlast.
  destruct s as [|c' s].
  - simpl. by rewrite (Hlast c).
  - change (rstrip (String c (String c' s)))
      with (match rstrip (String c' s) with
            | EmptyString =>
                if isspace c then EmptyString else String c EmptyString
            | kept => String c kept
            end).
    by rewrite IH.
Qed.

(** X10.  [strip] leaves a string as it is exactly when the string neither
    starts nor ends with white space, and stripping a second time changes
    nothing. *)
Theorem strip_fixed_points (s : string) :
  (strip s = s
   <-> (forall c, first_char s = Some c -> isspace c = false)
       /\ (forall c, last_char s = Some c -> isspace c = false))
  /\ strip (strip s) = strip s.
Proof.
  assert (forall t,
             (forall c, first_char t = Some c -> isspace c = false) ->
             (forall c, last_char t = Some c -> isspace c = false) ->
             strip t = t) as Hfixed.
  { intros t Hfirst Hlast. unfold strip.
    rewrite (lstrip_fixed t Hfirst). by apply rstrip_fixed. }
  split.
  - split.
    + intros Hs. destruct (strip_trimmed s) as (_ & Hfirst & Hlast).
      by rewrite Hs in Hfirst, Hlast.
    + intros [Hfirst Hlast]. by apply Hfixed.
  - destruct (strip_trimmed s) as (_ & Hfirst & Hlast). by apply Hfixed.
Qed.

Lemma strip_idempotent (s : string) : strip (strip s) = strip s.
Proof.
  destruct (strip_trimmed s) as (_ & Hfirst & Hlast). unfold strip at 1.
  rewrite (lstrip_fixed _ Hfirst). by apply rstrip_fixed.
Qed.

Lemma strip_without_separator (sep : ascii) (s : string) :
  occurrences sep s = 0%nat -> occurrences sep (strip s) = 0%nat.
Proof.
  destruct (strip_trimmed s) as ((left & right & Hs & _) & _).
  rewrite Hs at 1. rewrite !occurrences_app. lia.
Qed.

Lemma tokenize_without_separator (file : string) :
  Forall (fun token => occurrences "~" token = 0%nat) (tokenize file).
Proof.
  unfold tokenize. apply Forall_fmap.
  eapply Forall_impl; [apply split_no_separator|].
  intros piece. apply strip_without_separator.
Qed.

(** X11.  The tokens of a text, joined with the record delimiter, are a
    text with those same tokens: no token holds a delimiter or white
    space at its ends for a second pass to split or trim. *)
Theorem tokenize_of_joined_tokens (file : string) :
  tokenize (join "~" (tokenize file)) = tokenize file.
Proof.
  unfold tokenize at 1.
  rewrite split_of_join_pieces.
  - unfold tokenize. rewrite <- list_fmap_compose.
    apply list_fmap_ext. intros _ piece _. apply strip_idempotent.
  - unfold tokenize. intros Hnil%fmap_nil_inv.
    by destruct file; simpl in Hnil; repeat case_match.
  - apply tokenize_without_separator.
Qed.

Lemma strip_blank (s : string) : blank s = true -> strip s = EmptyString.
Proof.
  unfold strip. induction s as [|c s IH]; simpl; [done|].
  intros [Hc Hs]%andb_prop. rewrite Hc. by apply IH.
Qed.

Lemma blank_without_delimiter (s : string) :
  blank s = true -> occurrences "~" s = 0%nat.
Proof.
  induction s as [|c s IH]; simpl; [done|].
  intros [Hc Hs]%andb_prop. rewrite IH by done.
  case_bool_decide as Heq; [|done]. by subst c.
Qed.

(** X12.  The tokens of two texts put together with a record delimiter
    between them are the tokens of the first text followed by the tokens
    of the second. *)
Theorem tokenize_at_delimiter (file1 file2 : string) :
  tokenize (file1 +:+ String "~" file2) = tokenize file1 ++ tokenize file2.
Proof.
  unfold tokenize.
  rewrite split_app.
  rewrite fmap_app.
  reflexivity.
Qed.

(** X13.  A text that ends with a record delimiter, followed by nothing
    or by white space only (a final newline), has the tokens of the text
    before that delimiter and then one empty token. *)
Theorem tokenize_closed_document (body tail : string) :
  blank tail = true ->
  tokenize (body +:+ String "~" tail) = tokenize body ++ [EmptyString].
Proof.
  intros Htail. unfold tokenize. rewrite split_app, fmap_app.
  rewrite (split_without_separator "~" tail)
    by (by apply blank_without_delimiter).
  simpl. by rewrite strip_blank.
Qed.

End MoreTokenizerProperties.

(** ** Transaction set builder *)

Section MoreBuilderProperties.

Context {InterchangeSegment ReferenceSegment : Type}.
Context {collaborators : Collaborators InterchangeSegment ReferenceSegment}.

Abbreviation State' := (@build_state InterchangeSegment ReferenceSegment).

(** A pass on a segment that opens no loop: no factory is called. *)
Lemma build_iteration_flat (st : State') token cursor :
  pull (st_segment st) (st_segments st) = Some (token, cursor) ->
  takes to_organization token = false ->
  takes to_claim token = false ->
  build_iteration st
  = Continue
      {| st_interchange :=
           if takes to_interchange token
           then Some (InterchangeSegment_new token) else st_interchange st;
         st_financial_information :=
           if takes to_financial_information token
           then Some (FinancialInformationSegment_new token)
           else st_financial_information st;
         st_claims := st_claims st;
         st_organizations := st_organizations st;
         st_segment := None;
         st_segments := cursor |}.
Proof.
  unfold takes, dispatch, build_iteration, build_attribute.
  intros -> Ho Hc.
  repeat (case_bool_decide; simplify_eq/=; try done).
Qed.

Lemma build_attribute_dispatch (segment : option string)
    (segments : list string) token cursor :
  pull segment segments = Some (token, cursor) ->
  build_attribute segment segments
  = match dispatch token with
    | to_interchange =>
        {| key := Some "interchange";
           value := Some (an_interchange (InterchangeSegment_new token));
           segment := None; segments := Some cursor |}
    | to_financial_information =>
        {| key := Some "financial information";
           value :=
             Some (a_financial_information
                     (FinancialInformationSegment_new token));
           segment := None; segments := Some cursor |}
    | to_organization =>
        let '(organization, segments, segment) :=
          OrganizationLoop_build token cursor in
        {| key := Some "organization";
           value := Some (an_organization organization);
           segment := segment; segments := segments |}
    | to_claim =>
        let '(claim, segments, segment) := ClaimLoop_build token cursor in
        {| key := Some "claim"; value := Some (a_claim claim);
           segment := segment; segments := segments |}
    | to_nothing =>
        {| key := None; value := None;
           segment := None; segments := Some cursor |}
    end.
Proof.
  intros Hpull. unfold build_attribute, dispatch. rewrite Hpull.
  by repeat case_bool_decide.
Qed.

Lemma last_header_cons {A} (f : string -> bool) (new : string -> A)
    (token : string) (tokens : list string) :
  new <$> last (List.filter f (token :: tokens))
  = match new <$> last (List.filter f tokens) with
    | Some header => Some header
    | None => if f token then Some (new token) else None
    end.
Proof.
  simpl. destruct (f token); [|by destruct (last (List.filter f tokens))].
  rewrite last_cons. by destruct (last (List.filter f tokens)).
Qed.

Lemma takes_one_branch (token : string) (b b' : branch) :
  takes b token = true -> takes b' token = true -> b = b'.
Proof.
  unfold takes. intros H H'. apply bool_decide_eq_true in H, H'. congruence.
Qed.

Lemma build_loop_flat (tokens : list string) :
  forall (fuel : nat) (st : State'),
    st_segment st = None -> st_segments st = tokens ->
    Forall (fun token => takes to_organization token = false
                         /\ takes to_claim token = false) tokens ->
    (length tokens < fuel)%nat ->
    build_loop fuel st
    = Some {| st_interchange :=
                match interchange_of tokens with
                | Some i => Some i
                | None => st_interchange st
                end;
              st_financial_information :=
                match financial_information_of tokens with
                | Some f => Some f
                | None => st_financial_information st
                end;
              st_claims := st_claims st;
              st_organizations := st_organizations st;
              st_segment := None;
              st_segments := [] |}.
Proof.
  induction tokens as [|token cursor IH];
    intros fuel st Hsegment Hsegments Hflat Hfuel;
    (destruct fuel as [|fuel]; [simpl in Hfuel; lia|]); simpl.
  - rewrite build_iteration_end; [done|]. by rewrite Hsegment, Hsegments.
  - inversion Hflat as [|? ? [Ho Hc] Hflat']; subst.
    rewrite (build_iteration_flat st token cursor)
      by (done || by rewrite Hsegment, Hsegments).
    rewrite IH by (done || simpl in *; lia). simpl.
    unfold interchange_of, financial_information_of.
    rewrite !last_header_cons. f_equal.
    destruct (InterchangeSegment_new <$> _),
      (FinancialInformationSegment_new <$> _),
      (takes to_interchange token) eqn:Hi,
      (takes to_financial_information token) eqn:Hf; try done.
Qed.

Lemma build_flat (file : string) :
  Forall (fun token => takes to_organization token = false
                       /\ takes to_claim token = false) (tokenize file) ->
  build file
  = Some {| interchange := interchange_of (tokenize file);
            financial_information := financial_information_of (tokenize file);
            claims := [];
            organizations := [] |}.
Proof.
  intros Hflat. unfold build.
  rewrite (build_loop_flat (tokenize file) _ (initial_state (tokenize file))
             eq_refl eq_refl Hflat)
    by (unfold remaining; simpl; lia).
  simpl. unfold transaction_set_of. simpl.
  by destruct (interchange_of _), (financial_information_of _).
Qed.

(** X14.  On a text none of whose tokens opens an organization or a claim
    loop, [build] calls no loop factory and succeeds, whatever the
    factories are: the transaction set has no claim and no organization,
    its interchange is made from the last token taking the interchange
    branch and its financial information from the last token taking the
    financial information branch, each [None] when there is no such
    token.  The empty text is such a text when the identifier of the
    empty segment opens no loop. *)
Theorem build_without_loops (file : string) :
  Forall (fun token => takes to_organization token = false
                       /\ takes to_claim token = false) (tokenize file) ->
  build file
  = Some {| interchange := interchange_of (tokenize file);
            financial_information := financial_information_of (tokenize file);
            claims := [];
            organizations := [] |}.
Proof.
  intros Hflat. unfold build.
  rewrite (build_loop_flat (tokenize file) _ (initial_state (tokenize file))
             eq_refl eq_refl Hflat)
    by (unfold remaining; simpl; lia).
  simpl. unfold transaction_set_of. simpl.
  by destruct (interchange_of _), (financial_information_of _).
Qed.

(** X15.  A text none of whose tokens opens a loop is built into a
    transaction set on which the payer lookup raises, there being no
    organization, and which flattens all the same, to no row. *)
Theorem flat_document_flattens_to_nothing
    (str : ReferenceSegment -> string) (file : string) :
  Forall (fun token => takes to_organization token = false
                       /\ takes to_claim token = false) (tokenize file) ->
  exists ts,
    build file = Some ts
    /\ payer ts = Raise AssertionError
    /\ to_dataframe str ts = Ok [].
Proof.
  intros Hflat. eexists. split; [by apply build_flat|]. split; [done|].
  rewrite to_dataframe_unfold. done.
Qed.

(** X16.  When the factory of the loop a segment opens answers with no
    cursor, the pass breaks out of the loop before it records anything:
    [build] ends there, the loop the factory built is in neither list of
    the transaction set, and the tokens left are not read. *)
Theorem loop_without_cursor_is_lost (st : State') (token : string)
    (cursor : list string) :
  pull (st_segment st) (st_segments st) = Some (token, cursor) ->
  takes to_organization token = true
  /\ (OrganizationLoop_build token cursor).1.2 = None
  \/ takes to_claim token = true
     /\ (ClaimLoop_build token cursor).1.2 = None ->
  exists st',
    (forall fuel, build_loop (S fuel) st = Some st')
    /\ transaction_set_of st' = transaction_set_of st.
Proof.
  intros Hpull Hlost.
  assert (exists st', build_iteration st = Break st'
                      /\ transaction_set_of st' = transaction_set_of st)
    as (st' & Hpass & Hsame).
  { unfold build_iteration.
    rewrite (build_attribute_dispatch _ _ token cursor Hpull).
    unfold takes in Hlost.
    destruct Hlost as [[Hb Hnone]|[Hb Hnone]];
      apply bool_decide_eq_true in Hb; rewrite Hb.
    - destruct (OrganizationLoop_build token cursor) as [[o c] lo].
      simpl in Hnone. subst c. simpl. by eexists.
    - destruct (ClaimLoop_build token cursor) as [[c' c] lo].
      simpl in Hnone. subst c. simpl. by eexists. }
  exists st'. split; [|done]. intros fuel. simpl. by rewrite Hpass.
Qed.

Lemma build_iteration_grows (st : State') :
  match build_iteration st with
  | Continue st' | Break st' =>
      st_claims st `prefix_of` st_claims st'
      /\ st_organizations st `prefix_of` st_organizations st'
  end.
Proof.
  destruct (pull (st_segment st) (st_segments st)) as [[token cursor]|]
    eqn:Hpull; [|by rewrite build_iteration_end].
  unfold build_iteration.
  rewrite (build_attribute_dispatch _ _ token cursor Hpull).
  destruct (dispatch token); simpl; try done.
  - destruct (OrganizationLoop_build token cursor) as [[o [c|]] lo]; simpl;
      [|done]. split; [done|]. by apply prefix_app_r.
  - destruct (ClaimLoop_build token cursor) as [[c' [c|]] lo]; simpl;
      [|done]. split; [|done]. by apply prefix_app_r.
Qed.

(** X17.  Whatever the loop factories are, the loop of [build] only adds
    to the claims and to the organizations it has, at their end: the
    claims and organizations of the state it starts from are a prefix,
    in the same order, of those it ends with. *)
Theorem build_loop_keeps_records (fuel : nat) (st st' : State') :
  build_loop fuel st = Some st' ->
  st_claims st `prefix_of` st_claims st'
  /\ st_organizations st `prefix_of` st_organizations st'.
Proof.
  revert st. induction fuel as [|fuel IH]; intros st; [done|]. simpl.
  pose proof (build_iteration_grows st) as Hgrows.
  destruct (build_iteration st) as [st1|st1].
  - intros [Hc Ho]%IH. destruct Hgrows as [Hc' Ho'].
    split; by etrans.
  - by intros [= <-].
Qed.

Section MoreConforming.

(** The loop factories do what section 4.4 asks of them, and take as
    members no segment that opens a loop. *)
Context (owns : string -> Prop).
Context (organization_conforms : conforms owns OrganizationLoop_build).
Context (claim_conforms : conforms owns ClaimLoop_build).
Context (loops_not_owned :
  forall member, owns member ->
    takes to_organization member = false /\ takes to_claim member = false).

Lemma build_iteration_records (st : State') token cursor :
  pull (st_segment st) (st_segments st) = Some (token, cursor) ->
  exists st' members,
    build_iteration st = Continue st'
    /\ cursor = members ++ pending_tokens st'
    /\ Forall owns members
    /\ st_organizations st'
       = st_organizations st
         ++ (if takes to_organization token
             then [(OrganizationLoop_build token cursor).1.1] else [])
    /\ st_claims st'
       = st_claims st
         ++ (if takes to_claim token
             then [(ClaimLoop_build token cursor).1.1] else []).
Proof.
  intros Hpull. unfold build_iteration, takes.
  rewrite (build_attribute_dispatch _ _ token cursor Hpull).
  destruct (dispatch token) eqn:Hbranch.
  - eexists _, []. simpl. by rewrite !app_nil_r.
  - eexists _, []. simpl. by rewrite !app_nil_r.
  - destruct (organization_conforms token cursor)
      as (loop & members & leftover & rest & Hbuild & Hcursor & Hmembers).
    rewrite Hbuild. simpl. eexists _, members.
    split; [done|]. split; [done|]. split; [done|].
    by rewrite app_nil_r.
  - destruct (claim_conforms token cursor)
      as (loop & members & leftover & rest & Hbuild & Hcursor & Hmembers).
    rewrite Hbuild. simpl. eexists _, members.
    split; [done|]. split; [done|]. split; [done|].
    by rewrite app_nil_r.
  - eexists _, []. simpl. by rewrite !app_nil_r.
Qed.

Lemma organizations_of_members (members tokens : list string) :
  Forall owns members ->
  organizations_of (members ++ tokens) = organizations_of tokens.
Proof.
  induction 1 as [|member members Hmember _ IH]; [done|]. simpl.
  by destruct (loops_not_owned member Hmember) as [-> _].
Qed.

Lemma claims_of_members (members tokens : list string) :
  Forall owns members -> claims_of (members ++ tokens) = claims_of tokens.
Proof.
  induction 1 as [|member members Hmember _ IH]; [done|]. simpl.
  by destruct (loops_not_owned member Hmember) as [_ ->].
Qed.

Lemma build_loop_records (fuel : nat) (st st' : State') :
  build_loop fuel st = Some st' ->
  st_organizations st'
  = st_organizations st ++ organizations_of (pending_tokens st)
  /\ st_claims st' = st_claims st ++ claims_of (pending_tokens st).
Proof.
  revert st. induction fuel as [|fuel IH]; intros st; [done|]. simpl.
  pose proof (pull_pending_tokens st) as Hpull.
  destruct (pending_tokens st) as [|token cursor] eqn:Hpending.
  - rewrite build_iteration_end by done. intros [= <-]. simpl.
    by rewrite !app_nil_r.
  - destruct (build_iteration_records st token cursor Hpull)
      as (st1 & members & -> & Hcursor & Hmembers & Ho & Hc).
    intros [Ho' Hc']%IH. rewrite Ho', Hc', Ho, Hc. simpl.
    rewrite Hcursor at 3 6.
    rewrite organizations_of_members, claims_of_members by done.
    by rewrite <- !app_assoc.
Qed.

Lemma organizations_of_length (tokens : list string) :
  length (organizations_of tokens)
  = length (List.filter (takes to_organization) tokens).
Proof.
  induction tokens as [|token tokens IH]; [done|]. simpl.
  rewrite length_app, IH. by destruct (takes to_organization token).
Qed.

Lemma claims_of_length (tokens : list string) :
  length (claims_of tokens) = length (List.filter (takes to_claim) tokens).
Proof.
  induction tokens as [|token tokens IH]; [done|]. simpl.
  rewrite length_app, IH. by destruct (takes to_claim token).
Qed.

(** X18.  With loop factories that do what section 4.4 asks and take as
    members no segment that opens a loop, the organizations of the
    transaction set [build] returns are, in document order, the loops the
    organization factory makes at each token taking the organization
    branch, from that token and the tokens after it in the document; the
    claims likewise.  So there are as many organizations, and as many
    claims, as tokens taking each branch. *)
Theorem build_records_in_document_order (file : string) :
  exists ts,
    build file = Some ts
    /\ organizations ts = organizations_of (tokenize file)
    /\ claims ts = claims_of (tokenize file)
    /\ length (organizations ts)
       = length (List.filter (takes to_organization) (tokenize file))
    /\ length (claims ts)
       = length (List.filter (takes to_claim) (tokenize file)).
Proof.
  unfold build.
  destruct (build_loop_terminates owns organization_conforms claim_conforms
              (S (remaining (initial_state (tokenize file) : State')))
              (initial_state (tokenize file))) as (st' & Hrun & _); [lia|].
  rewrite Hrun. exists (transaction_set_of st'). split; [done|].
  apply build_loop_records in Hrun as [Ho Hc]. simpl in *.
  unfold pending_tokens in *. simpl in *.
  rewrite Ho, Hc. rewrite organizations_of_length, claims_of_length. done.
Qed.

End MoreConforming.

End MoreBuilderProperties.

(** ** The further properties on the sample catalogue and sets *)

Lemma sample_loops_not_owned (member : string) :
  sample_owns member ->
  takes (collaborators := sample_collaborators) to_organization member = false
  /\ takes (collaborators := sample_collaborators) to_claim member = false.
Proof.
  unfold sample_owns, takes, dispatch. simpl.
  rewrite !elem_of_cons.
  intros [->|[->|[->|[->|[->|[->|[->|[]%elem_of_nil]]]]]]]; by split.
Qed.

Lemma sample_document_flat_has_no_loop :
  Forall
    (fun token =>
       takes (collaborators := sample_collaborators) to_organization token
       = false
       /\ takes (collaborators := sample_collaborators) to_claim token = false)
    (tokenize sample_document_flat).
Proof. vm_compute. repeat constructor. Qed.

Lemma flatten_outcomes_witness :
  to_dataframe id sample_set_headless = Raise AttributeError
  /\ exists rows, to_dataframe id sample_set = Ok rows.
Proof.
  split.
  - apply (proj1 (proj2 (flatten_outcomes id sample_set_headless
                           ltac:(intros H; inversion H; discriminate)))).
    split; reflexivity.
  - apply (proj2 (proj2 (flatten_outcomes id sample_set
                           ltac:(intros H; inversion H; discriminate)))).
    split; [reflexivity|]. by eexists.
Defined.

Lemma row_counts_witness :
  exists rows,
    to_dataframe id sample_set = Ok rows
    /\ length rows = 2%nat
    /\ length (List.filter is_payment rows) = 1%nat.
Proof.
  eexists. split; [reflexivity|].
  exact (row_counts id sample_set _ eq_refl).
Defined.

Lemma rows_have_all_columns_witness :
  exists rows,
    to_dataframe id sample_set = Ok rows
    /\ Forall (fun row => dom row = row_columns) rows.
Proof.
  eexists. split; [reflexivity|].
  exact (rows_have_all_columns id sample_set _ eq_refl).
Defined.

Lemma payer_column_is_the_payer_witness :
  exists rows,
    to_dataframe id sample_set = Ok rows
    /\ exists o,
         List.filter is_payer (organizations sample_set) = [o]
         /\ Forall (fun row => row !! "payer" = Some (name (organization o)))
              rows.
Proof.
  eexists. split; [reflexivity|].
  apply (payer_column_is_the_payer id sample_set _ eq_refl). discriminate.
Defined.

Lemma organizations_order_is_irrelevant_witness :
  payer (with_organizations sample_set [sample_payee; sample_payer])
  = payer sample_set
  /\ to_dataframe id
       (with_organizations sample_set [sample_payee; sample_payer])
     = to_dataframe id sample_set.
Proof.
  apply (organizations_order_is_irrelevant id sample_set). apply perm_swap.
Defined.

Lemma split_and_join_witness :
  split "~" (join "~" ["ST*835"; EmptyString; "SE*2"])
  = ["ST*835"; EmptyString; "SE*2"].
Proof.
  apply (proj2 (split_and_join "~")); [discriminate|].
  repeat constructor.
Defined.

Lemma strip_fixed_points_witness : strip "SE*2 1" = "SE*2 1".
Proof.
  apply (proj1 (strip_fixed_points "SE*2 1")).
  split; intros c [= <-]; reflexivity.
Defined.

Lemma tokenize_closed_document_witness :
  tokenize ("ST*835~ SE*2" +:+ String "~" " ")
  = tokenize "ST*835~ SE*2" ++ [EmptyString].
Proof.
  apply (tokenize_closed_document "ST*835~ SE*2" " "). reflexivity.
Defined.

Lemma build_without_loops_witness :
  build (collaborators := sample_collaborators) sample_document_flat
  = Some {| interchange := Some "ISA*00";
            financial_information :=
              Some {| transaction_date := VStr "20190315" |};
            claims := [];
            organizations := [] |}.
Proof.
  rewrite (build_without_loops (collaborators := sample_collaborators)
             sample_document_flat sample_document_flat_has_no_loop).
  reflexivity.
Defined.

Lemma flat_document_flattens_to_nothing_witness :
  exists ts,
    build (collaborators := sample_collaborators) sample_document_flat
    = Some ts
    /\ payer ts = Raise AssertionError
    /\ to_dataframe id ts = Ok [].
Proof.
  exact (flat_document_flattens_to_nothing
           (collaborators := sample_collaborators) id sample_document_flat
           sample_document_flat_has_no_loop).
Defined.

(** The payer organization is the last loop of the document, its factory
    reaches the end of the cursor, and the transaction set has no
    organization. *)
Lemma loop_without_cursor_is_lost_witness :
  exists st' : @build_state string string,
    (forall fuel,
        build_loop (collaborators := sample_collaborators_to_the_end)
          (S fuel) (initial_state ["N1*PR*INSURER"; "N3*1 MAIN ST"])
        = Some st')
    /\ transaction_set_of st'
       = {| interchange := None; financial_information := None;
            claims := []; organizations := [] |}.
Proof.
  apply (loop_without_cursor_is_lost
           (collaborators := sample_collaborators_to_the_end)
           (initial_state ["N1*PR*INSURER"; "N3*1 MAIN ST"])
           "N1*PR*INSURER" ["N3*1 MAIN ST"]).
  - reflexivity.
  - left. split; reflexivity.
Defined.

Lemma build_loop_keeps_records_witness :
  exists st' : @build_state string string,
    build_loop (collaborators := sample_collaborators) 7
      {| st_interchange := None; st_financial_information := None;
         st_claims := [sample_claim]; st_organizations := [sample_payee];
         st_segment := None;
         st_segments := tokenize "N1*PR*INSURER~SE*2~CLP*7" |}
    = Some st'
    /\ [sample_claim] `prefix_of` st_claims st'
    /\ [sample_payee] `prefix_of` st_organizations st'.
Proof.
  eexists. split; [vm_compute; reflexivity|].
  apply (build_loop_keeps_records (collaborators := sample_collaborators) 7
           {| st_interchange := None; st_financial_information := None;
              st_claims := [sample_claim]; st_organizations := [sample_payee];
              st_segment := None;
              st_segments := tokenize "N1*PR*INSURER~SE*2~CLP*7" |}).
  vm_compute. reflexivity.
Defined.

Lemma build_records_in_document_order_witness :
  exists ts,
    build (collaborators := sample_collaborators) sample_document = Some ts
    /\ length (organizations ts) = 1%nat
    /\ length (claims ts) = 1%nat.
Proof.
  destruct (build_records_in_document_order
              (collaborators := sample_collaborators)
              sample_owns sample_Organization_conforms sample_Claim_conforms
              sample_loops_not_owned sample_document)
    as (ts & Hbuild & _ & _ & Ho & Hc).
  exists ts. split; [exact Hbuild|].
  split; [rewrite Ho|rewrite Hc]; reflexivity.
Defined.

Lemma adjustment_rows_sum_to_adjustments_witness :
  exists rows,
    to_dataframe id sample_set = Ok rows /\ sum_adjustment_rows rows = 10.
Proof.
  eexists. split; [reflexivity|].
  rewrite (adjustment_rows_sum_to_adjustments id sample_set) by reflexivity.
  reflexivity.
Defined.
